(** * transcribe-ner: entity reconstruction and categorization

    A shallow embedding of the entity pipeline of the repository:

    - [medical_ner_hf.py]: [MedicalNERHF.extract_entities],
      [MedicalNERHF._reconstruct_entities] and
      [MedicalNERHF.process_medical_text];
    - [app.py]: [extract_medical_entities],
      [transcribe_audio_with_sarvam] and [process_audio];
    - [sarvam_stt_translate.py]: [send_to_sarvam].

    Conventions of the embedding.

    - A Python [str] is a [string]; every [ascii] stands for one code point
      below 256, so [len] is [String.length].
    - Python integers are unbounded: offsets are in [Z].
    - An entity is a JSON object whose fields may be absent: every field of
      [RawEntity] is an [option], and [d.get(k, default)] is [get].
    - A score is a JSON number which the code only copies; it is a [Q].
    - [print] appends a line to an output log which the functions of
      [medical_ner_hf.py] return next to their value.
    - A [while] loop is a function with a bound [fuel] on the iterations
      it may still run; a run either returns, raises or exhausts its
      fuel ([Run]).  The [fuel] handed to each loop is shown to suffice. *)

From Stdlib Require Import ZArith List String Ascii Bool Lia QArith.
From Stdlib Require Import DecimalString Sorted Permutation.
Import ListNotations.

Open Scope string_scope.
Open Scope Z_scope.
Open Scope list_scope.

(** ** Python primitives *)

Module Py.

(** [d.get(k, default)] on an optional field. *)
Definition get {A : Type} (field : option A) (default : A) : A :=
  match field with
  | Some v => v
  | None => default
  end.

(** [len(s)]. *)
Definition len (s : string) : Z := Z.of_nat (String.length s).

(** Truth value of a [str]: the empty string is falsy. *)
Definition truthy (s : string) : bool :=
  match s with
  | EmptyString => false
  | String _ _ => true
  end.

(** [a or b] on strings: [a] when it is truthy, else [b]. *)
Definition or_ (a b : string) : string := if truthy a then a else b.

(** [str.isspace] on one code point below 256: TAB..CR, FS..US, space,
    NEL (0x85) and NBSP (0xA0). *)
Definition isspace (c : ascii) : bool :=
  let n := N_of_ascii c in
  (((9 <=? n) && (n <=? 13)) || ((28 <=? n) && (n <=? 32))
   || (n =? 133) || (n =? 160))%N.

(** Membership of a character in the argument of [rstrip(chars)]. *)
Fixpoint char_in (c : ascii) (chars : string) : bool :=
  match chars with
  | EmptyString => false
  | String d chars' => Ascii.eqb c d || char_in c chars'
  end.

(** Remove the longest prefix of characters satisfying [p]. *)
Fixpoint lstrip_by (p : ascii -> bool) (s : string) : string :=
  match s with
  | EmptyString => EmptyString
  | String c s' => if p c then lstrip_by p s' else s
  end.

(** Remove the longest suffix of characters satisfying [p]. *)
Fixpoint rstrip_by (p : ascii -> bool) (s : string) : string :=
  match s with
  | EmptyString => EmptyString
  | String c s' =>
      match rstrip_by p s' with
      | EmptyString => if p c then EmptyString else String c EmptyString
      | String _ _ as r => String c r
      end
  end.

(** [s.strip()]. *)
Definition strip (s : string) : string := rstrip_by isspace (lstrip_by isspace s).

(** [s.rstrip(chars)]. *)
Definition rstrip (s chars : string) : string :=
  rstrip_by (fun c => char_in c chars) s.

(** Normalisation of one slice bound against a sequence of length [n]:
    a negative bound counts from the end, and the result is clamped
    to [0 .. n]. *)
Definition slice_bound (n i : Z) : Z :=
  if i <? 0 then Z.max 0 (i + n) else Z.min i n.

(** [s[a:b]] for integer bounds; never raises. *)
Definition slice (s : string) (a b : Z) : string :=
  let n := len s in
  let lo := slice_bound n a in
  let hi := slice_bound n b in
  substring (Z.to_nat lo) (Z.to_nat (hi - lo)) s.

(** [sub in s] on strings. *)
Fixpoint contains (s sub : string) : bool :=
  prefix sub s ||
  match s with
  | EmptyString => false
  | String _ s' => contains s' sub
  end.

(** [x in l] on a list of strings. *)
Fixpoint mem (x : string) (l : list string) : bool :=
  match l with
  | [] => false
  | y :: l' => String.eqb x y || mem x l'
  end.

(** [str(n)] for an integer, as an f-string formats it. *)
Definition str_int (n : Z) : string := NilEmpty.string_of_int (Z.to_int n).

End Py.

(** ** Outcomes of a run *)

(** The exception the embedded code could raise: [seq[i]] out of range. *)
Inductive PyError : Type := IndexError.

Inductive Run (A : Type) : Type :=
| Returns (a : A)
| Raises (e : PyError)
| OutOfFuel.

Arguments Returns {A} a.
Arguments Raises {A} e.
Arguments OutOfFuel {A}.

Definition bind {A B : Type} (c : Run A) (k : A -> Run B) : Run B :=
  match c with
  | Returns a => k a
  | Raises e => Raises e
  | OutOfFuel => OutOfFuel
  end.

Notation "x <- c ;; k" := (bind c (fun x => k))
  (at level 61, c at next level, right associativity).
Notation "' pat <- c ;; k" := (bind c (fun x => match x with pat => k end))
  (at level 61, pat pattern, c at next level, right associativity).

(** [seq[i]] for a non-negative index. *)
Definition item {A : Type} (seq : list A) (i : nat) : Run A :=
  match nth_error seq i with
  | Some x => Returns x
  | None => Raises IndexError
  end.

(** ** Data model *)

(** One unit of the NER response: a JSON object with optional fields
    ([end] is a keyword, hence [end_]). *)
Record RawEntity : Type := mkEntity {
  word : option string;
  entity : option string;
  entity_group : option string;
  start : option Z;
  end_ : option Z;
  score : option Q
}.

(** [current['word'] = w] on a copy of the object. *)
Definition set_word (current : RawEntity) (w : string) : RawEntity :=
  {| word := Some w;
     entity := entity current;
     entity_group := entity_group current;
     start := start current;
     end_ := end_ current;
     score := score current |}.

(** The four named buckets, the values of [entity_category_map]. *)
Inductive Bucket : Type := diseases | medications | symptoms | procedures.

Definition Bucket_eqb (a b : Bucket) : bool :=
  match a, b with
  | diseases, diseases | medications, medications
  | symptoms, symptoms | procedures, procedures => true
  | _, _ => false
  end.

(** A record of the [other] bucket: [{word, type, confidence}]. *)
Record OtherRecord : Type := mkOther {
  other_word : string;
  other_type : string;
  other_confidence : Q
}.

(** The dictionary [medical_entities] with its five fixed keys. *)
Record CategorizedEntitySet : Type := mkSet {
  set_diseases : list string;
  set_medications : list string;
  set_symptoms : list string;
  set_procedures : list string;
  set_other : list OtherRecord
}.

(** [medical_entities[category]]. *)
Definition bucket (m : CategorizedEntitySet) (category : Bucket) : list string :=
  match category with
  | diseases => set_diseases m
  | medications => set_medications m
  | symptoms => set_symptoms m
  | procedures => set_procedures m
  end.

(** [medical_entities[category].append(w)]. *)
Definition bucket_append (m : CategorizedEntitySet) (category : Bucket) (w : string)
  : CategorizedEntitySet :=
  match category with
  | diseases =>
      mkSet (set_diseases m ++ [w]) (set_medications m) (set_symptoms m)
            (set_procedures m) (set_other m)
  | medications =>
      mkSet (set_diseases m) (set_medications m ++ [w]) (set_symptoms m)
            (set_procedures m) (set_other m)
  | symptoms =>
      mkSet (set_diseases m) (set_medications m) (set_symptoms m ++ [w])
            (set_procedures m) (set_other m)
  | procedures =>
      mkSet (set_diseases m) (set_medications m) (set_symptoms m)
            (set_procedures m ++ [w]) (set_other m)
  end.

(** [medical_entities["other"].append(r)]. *)
Definition other_append (m : CategorizedEntitySet) (r : OtherRecord)
  : CategorizedEntitySet :=
  mkSet (set_diseases m) (set_medications m) (set_symptoms m)
        (set_procedures m) (set_other m ++ [r]).

(** The initial dictionary: five empty lists. *)
Definition empty_set : CategorizedEntitySet := mkSet [] [] [] [] [].

(** ** Span Reconstructor: [MedicalNERHF._reconstruct_entities] *)

(** Characters removed by [rstrip('.,;:!?')]. *)
Definition trailing_punctuation : string := ".,;:!?".

(** Lines 77-83: the guarded substring assignment on the copy [current]. *)
Definition extract_word (current : RawEntity) (start_pos end_pos : Z)
  (original_text : string) : RawEntity :=
  if (start_pos <? Py.len original_text) && (end_pos <=? Py.len original_text)
  then
    let actual_text := Py.strip (Py.slice original_text start_pos end_pos) in
    let actual_text := Py.rstrip actual_text trailing_punctuation in
    set_word current actual_text
  else current.

(** Lines 64-75: [while j < len(entities)], from the state [(j, end_pos)];
    returns the state at the exit of the loop. *)
Fixpoint inner_while (fuel : nat) (entities : list RawEntity) (j : nat)
  (end_pos : Z) : Run (nat * Z) :=
  if (j <? List.length entities)%nat
  then
    match fuel with
    | O => OutOfFuel
    | S fuel' =>
        next_entity <- item entities j ;;
        let next_start := Py.get (start next_entity) 0 in
        if next_start <=? end_pos + 2
        then
          inner_while fuel' entities (j + 1)
            (Z.max end_pos (Py.get (end_ next_entity) next_start))
        else Returns (j, end_pos)
    end
  else Returns (j, end_pos).

(** Lines 55-85: [while i < len(entities)], from the state
    [(i, reconstructed)]. *)
Fixpoint outer_while (fuel : nat) (entities : list RawEntity)
  (original_text : string) (i : nat) (reconstructed : list RawEntity)
  : Run (list RawEntity) :=
  if (i <? List.length entities)%nat
  then
    match fuel with
    | O => OutOfFuel
    | S fuel' =>
        current <- item entities i ;;
        let start_pos := Py.get (start current) 0 in
        let end_pos := Py.get (end_ current) start_pos in
        '(j, end_pos) <- inner_while (List.length entities) entities (i + 1) end_pos ;;
        let current := extract_word current start_pos end_pos original_text in
        outer_while fuel' entities original_text j (reconstructed ++ [current])
    end
  else Returns reconstructed.

(** [MedicalNERHF._reconstruct_entities(entities, original_text)].  Each
    loop may run [len(entities)] iterations. *)
Definition _reconstruct_entities (entities : list RawEntity)
  (original_text : string) : Run (list RawEntity) :=
  match entities with
  | [] => Returns entities
  | _ :: _ => outer_while (List.length entities) entities original_text 0 []
  end.

(** ** Category Mapper and Entity Aggregator *)

(** [entity_category_map], in the order of its declaration (a Python
    [dict] iterates in insertion order). *)
Definition entity_category_map : list (string * Bucket) :=
  [ ("DISEASE", diseases);
    ("DRUG", medications);
    ("SYMPTOM", symptoms);
    ("PROCEDURE", procedures);
    ("Diagnostic_procedure", procedures);
    ("Medication", medications);
    ("Sign_symptom", symptoms) ].

(** The [for key, value in ....items()] loop with its [break]. *)
Fixpoint first_match (items : list (string * Bucket)) (label : string)
  : option Bucket :=
  match items with
  | [] => None
  | (key, value) :: items' =>
      if Py.contains label key then Some value else first_match items' label
  end.

Definition map_category (label : string) : option Bucket :=
  first_match entity_category_map label.

(** [entity.get('entity', '') or entity.get('entity_group', '')]. *)
Definition label_of (e : RawEntity) : string :=
  Py.or_ (Py.get (entity e) "") (Py.get (entity_group e) "").

(** [entity_word.strip().rstrip('.,;:!?')]. *)
Definition clean (entity_word : string) : string :=
  Py.rstrip (Py.strip entity_word) trailing_punctuation.

(** The body of [for entity in processed_entities] of
    [process_medical_text] (lines 131-163). *)
Definition categorize_step (medical_entities : CategorizedEntitySet)
  (e : RawEntity) : CategorizedEntitySet :=
  let entity_word := Py.get (word e) "" in
  let entity_group := label_of e in
  if negb (Py.truthy entity_word) || negb (Py.truthy entity_group)
  then medical_entities
  else
    let clean_word := clean entity_word in
    if Py.len clean_word <? 2 then medical_entities
    else
      match map_category entity_group with
      | Some category =>
          if Py.mem clean_word (bucket medical_entities category)
          then medical_entities
          else bucket_append medical_entities category clean_word
      | None =>
          other_append medical_entities
            (mkOther clean_word entity_group (Py.get (score e) 0%Q))
      end.

(** The whole loop, from the fresh dictionary. *)
Definition categorize (processed_entities : list RawEntity) : CategorizedEntitySet :=
  fold_left categorize_step processed_entities empty_set.

(** ** Extraction gateway and [process_medical_text] *)

(** The value of [response.json()] within the data model: [null], an
    array of entity objects ([RawEntity]: string word and labels, integer
    offsets, each possibly absent), or an object with string values,
    which is what an error envelope carries.  Other JSON values (a
    string, a number, a boolean, an array with an element that is not
    such an object) are outside the embedding; nothing below speaks
    about them. *)
Inductive PyValue : Type :=
| PyNone
| PyList (entities : list RawEntity)
| PyDict (items : list (string * string)).

(** [response.json()] either raises (the body is not JSON) or returns. *)
Inductive JsonResult : Type :=
| JsonRaises (e : string)
| JsonValue (v : PyValue).

Record Response : Type := mkResponse {
  status_code : Z;
  text : string;
  json : JsonResult
}.

(** [requests.post(...)] either raises or returns a response. *)
Inductive PostOutcome : Type :=
| PostRaises (e : string)
| PostReturns (response : Response).

(** [key in d] and [d.get(key, default)] on an object. *)
Fixpoint dict_get (items : list (string * string)) (key : string) : option string :=
  match items with
  | [] => None
  | (k, v) :: items' => if String.eqb k key then Some v else dict_get items' key
  end.

(** [MedicalNERHF.extract_entities]: the printed lines and the returned
    value ([PyNone] is Python's [None]).  [hf_post] is the inference
    service behind [requests.post]. *)
Definition extract_entities (hf_post : string -> PostOutcome) (text_in : string)
  : list string * PyValue :=
  let out := ["Sending text to Hugging Face Medical NER API..."] in
  match hf_post text_in with
  | PostRaises e => (out ++ [("Error extracting entities: " ++ e)%string], PyNone)
  | PostReturns response =>
      if status_code response =? 200
      then
        match json response with
        | JsonRaises e => (out ++ [("Error extracting entities: " ++ e)%string], PyNone)
        | JsonValue entities =>
            (out ++ ["Medical entities extracted successfully!"], entities)
        end
      else
        (out ++ [("Error: " ++ Py.str_int (status_code response))%string; text response],
         PyNone)
  end.

(** The dictionary returned by [process_medical_text]: [{"error": msg}]
    or the five-bucket [medical_entities]. *)
Inductive ProcessResult : Type :=
| Error (msg : string)
| Entities (medical_entities : CategorizedEntitySet).

(** [MedicalNERHF.process_medical_text], after the gateway call: the
    three failure guards, then reconstruction and categorization. *)
Definition process_raw (raw_entities : PyValue) (transcription : string)
  : Run ProcessResult :=
  match raw_entities with
  | PyNone => Returns (Error "Failed to extract entities - API error")
  | PyDict items =>
      match dict_get items "error" with
      | Some e => Returns (Error ("API Error: " ++ e)%string)
      | None => Returns (Error "Unexpected API response format")
      end
  | PyList raw =>
      processed_entities <- _reconstruct_entities raw transcription ;;
      Returns (Entities (categorize processed_entities))
  end.

(** [MedicalNERHF.process_medical_text]: printed lines and result. *)
Definition process_medical_text (hf_post : string -> PostOutcome)
  (transcription : string) : list string * Run ProcessResult :=
  let '(out, raw_entities) := extract_entities hf_post transcription in
  (out, process_raw raw_entities transcription).

(** ** [app.py]: [extract_medical_entities] *)

(** The dictionary returned by [extract_medical_entities]:
    [{"success": True, "data": ...}] or
    [{"success": False, "error": ..., "details": ...}]. *)
Inductive AppResult : Type :=
| AppSuccess (data : CategorizedEntitySet)
| AppFailure (error details : string).

(** The body of [for entity in raw_entities] of [app.py]
    (lines 95-127). *)
Definition app_step (medical_entities : CategorizedEntitySet) (e : RawEntity)
  : CategorizedEntitySet :=
  let entity_word := Py.get (word e) "" in
  let entity_group := Py.or_ (Py.get (entity e) "") (Py.get (entity_group e) "") in
  if negb (Py.truthy entity_word) || negb (Py.truthy entity_group)
  then medical_entities
  else
    let clean_word := Py.rstrip (Py.strip entity_word) ".,;:!?" in
    if Py.len clean_word <? 2 then medical_entities
    else
      match first_match entity_category_map entity_group with
      | Some category =>
          if Py.mem clean_word (bucket medical_entities category)
          then medical_entities
          else bucket_append medical_entities category clean_word
      | None =>
          other_append medical_entities
            (mkOther clean_word entity_group (Py.get (score e) 0%Q))
      end.

(** [extract_medical_entities(text)] of [app.py].  The [except] clause
    turns every exception into a failure carrying [str(e)]; iterating
    [None], or calling [.get] on a key of an object, raises. *)
Definition extract_medical_entities (hf_post : string -> PostOutcome)
  (text_in : string) : AppResult :=
  let failed := AppFailure "Failed to extract medical entities" in
  match hf_post text_in with
  | PostRaises e => failed e
  | PostReturns response =>
      if status_code response =? 200
      then
        match json response with
        | JsonRaises e => failed e
        | JsonValue PyNone => failed "'NoneType' object is not iterable"
        | JsonValue (PyDict []) => AppSuccess empty_set
        | JsonValue (PyDict (_ :: _)) =>
            failed "'str' object has no attribute 'get'"
        | JsonValue (PyList raw_entities) =>
            AppSuccess (fold_left app_step raw_entities empty_set)
        end
      else
        AppFailure ("Hugging Face API error: " ++ Py.str_int (status_code response))%string
                   (text response)
  end.

(** A service that answers every request with [response]. *)
Definition always (response : Response) : string -> PostOutcome :=
  fun _ => PostReturns response.

(** ** The reconstruction loops in functional form *)

(** The inner loop on the list [entities[j:]]: the final [end_pos] and
    the fragments left, [entities[j':]]. *)
Fixpoint merge_scan (end_pos : Z) (rest : list RawEntity) : Z * list RawEntity :=
  match rest with
  | [] => (end_pos, [])
  | next_entity :: rest' =>
      let next_start := Py.get (start next_entity) 0 in
      if next_start <=? end_pos + 2
      then merge_scan (Z.max end_pos (Py.get (end_ next_entity) next_start)) rest'
      else (end_pos, rest)
  end.

(** The outer loop on the list [entities[i:]]: the entities it appends. *)
Fixpoint reconstruct_loop (fuel : nat) (entities : list RawEntity)
  (original_text : string) : list RawEntity :=
  match fuel, entities with
  | S fuel', current :: rest =>
      let start_pos := Py.get (start current) 0 in
      let end_pos := Py.get (end_ current) start_pos in
      let '(end_pos, rest') := merge_scan end_pos rest in
      extract_word current start_pos end_pos original_text
        :: reconstruct_loop fuel' rest' original_text
  | _, _ => []
  end.

Definition reconstruct (entities : list RawEntity) (original_text : string)
  : list RawEntity :=
  reconstruct_loop (List.length entities) entities original_text.

(** ** Merge groups, as the specification describes them *)

(** The offsets of a fragment: [start] defaults to 0 and [end] to the
    fragment's [start]. *)
Definition own_start (e : RawEntity) : Z := Py.get (start e) 0.
Definition own_end (e : RawEntity) : Z := Py.get (end_ e) (own_start e).

(** [absorbs end_pos run end_pos']: starting from a window ending at
    [end_pos], every fragment of [run] in turn starts at most two
    characters after the current end and extends the end to the maximum
    of the current end and its own end; [end_pos'] is the final end. *)
Inductive absorbs : Z -> list RawEntity -> Z -> Prop :=
| absorbs_nil : forall end_pos, absorbs end_pos [] end_pos
| absorbs_cons : forall end_pos next run end_pos',
    own_start next <= end_pos + 2 ->
    absorbs (Z.max end_pos (own_end next)) run end_pos' ->
    absorbs end_pos (next :: run) end_pos'.

(** The run is maximal: nothing follows, or the next fragment starts
    more than two characters after the end of the window. *)
Definition stops_before (end_pos : Z) (rest : list RawEntity) : Prop :=
  match rest with
  | [] => True
  | next :: _ => end_pos + 2 < own_start next
  end.

(** A merge group: its first fragment, the fragments merged into it and
    the window [[group_start, group_end)]. *)
Record MergeGroup : Type := mkGroup {
  group_first : RawEntity;
  group_tail : list RawEntity;
  group_start : Z;
  group_end : Z
}.

(** [merge_groups entities gs]: [gs] cuts [entities] into consecutive
    maximal runs, in input order. *)
Inductive merge_groups : list RawEntity -> list MergeGroup -> Prop :=
| merge_groups_nil : merge_groups [] []
| merge_groups_cons : forall current run rest end_pos gs,
    absorbs (own_end current) run end_pos ->
    stops_before end_pos rest ->
    merge_groups rest gs ->
    merge_groups (current :: run ++ rest)
      (mkGroup current run (own_start current) end_pos :: gs).

(** Ascending order of the fragments by [start]. *)
Definition sorted_by_start (entities : list RawEntity) : Prop :=
  StronglySorted (fun a b => own_start a <= own_start b) entities.

(** An output entity has every attribute of [e] except possibly [word]. *)
Definition same_attributes (out e : RawEntity) : Prop :=
  entity out = entity e /\ entity_group out = entity_group e /\
  score out = score e /\ start out = start e /\ end_ out = end_ e.

(** The entity accepted by the filters of the aggregation loop. *)
Definition accepted (e : RawEntity) : bool :=
  Py.truthy (Py.get (word e) "") && Py.truthy (label_of e)
  && negb (Py.len (clean (Py.get (word e) "")) <? 2).

(** Entities routed to [other]: accepted, and no key of the map occurs
    in the label. *)
Definition routed_to_other (e : RawEntity) : bool :=
  accepted e &&
  match map_category (label_of e) with
  | Some _ => false
  | None => true
  end.

(** The record built for an entity routed to [other]. *)
Definition other_record (e : RawEntity) : OtherRecord :=
  mkOther (clean (Py.get (word e) "")) (label_of e) (Py.get (score e) 0%Q).

(** [key] occurs in [label] as a substring. *)
Definition occurs_in (key label : string) : Prop :=
  exists before after, label = (before ++ key ++ after)%string.

(** The output entity of a merge group, inside the text: the attributes
    of the first fragment, and the substring of the window, stripped of
    surrounding whitespace and then of trailing punctuation, as [word]. *)
Definition group_output (original_text : string) (g : MergeGroup)
  (out : RawEntity) : Prop :=
  same_attributes out (group_first g) /\
  (0 <= group_start g < Py.len original_text ->
   0 <= group_end g <= Py.len original_text ->
   word out =
   Some (Py.rstrip (Py.strip (Py.slice original_text (group_start g) (group_end g)))
           trailing_punctuation)).

(** The output entity of a merge group whose window passes the end of
    the text: the first fragment itself. *)
Definition group_kept (original_text : string) (g : MergeGroup)
  (out : RawEntity) : Prop :=
  Py.len original_text <= group_start g \/ Py.len original_text < group_end g ->
  out = group_first g.

(** ** Concrete inputs *)

Definition fragment (w label : string) (s e : Z) (sc : Q) : RawEntity :=
  mkEntity (Some w) (Some label) None (Some s) (Some e) (Some sc).

(** End-to-end scenario 1 of the specification, with its offsets. *)
Definition scenario1_text : string := "Patient has hypertension today.".
Definition scenario1_entities : list RawEntity :=
  [ fragment "hyper" "DISEASE" 20 25 (9 # 10);
    fragment "tension" "DISEASE" 25 32 (8 # 10) ].

(** The same fragments at the offsets of the word in the text. *)
Definition aligned_entities : list RawEntity :=
  [ fragment "hyper" "DISEASE" 12 17 (9 # 10);
    fragment "tension" "DISEASE" 17 24 (8 # 10) ].

(** A successful response carrying [entities]. *)
Definition ok_response (entities : list RawEntity) : Response :=
  mkResponse 200 "[...]" (JsonValue (PyList entities)).

(** Two failing responses. *)
Definition response_503 : Response :=
  mkResponse 503 "Service Unavailable" (JsonRaises "Expecting value").
Definition response_500 : Response :=
  mkResponse 500 "Internal Server Error" (JsonRaises "Expecting value").

(** A fragment with a negative [start]. *)
Definition cough_text : string := "dry cough".
Definition cough_entity : RawEntity := fragment "co" "Sign_symptom" (-5) 9 (7 # 10).

(** A window that starts on the space before the word. *)
Definition fever_text : string := "high fever today".
Definition fever_entity : RawEntity := fragment "fever" "Sign_symptom" 4 10 (9 # 10).

(** A fragment located at the very end of the text. *)
Definition flu_text : string := "flu".
Definition flu_entity : RawEntity := fragment "flu" "DISEASE" 3 3 (9 # 10).

(** The same word under two labels. *)
Definition aspirin_text : string := "aspirin and aspirin".
Definition aspirin_entities : list RawEntity :=
  [ fragment "aspirin" "DISEASE" 0 7 (9 # 10);
    fragment "aspirin" "DRUG" 12 19 (8 # 10) ].

(** The same word twice under a label no key of the map occurs in. *)
Definition rash_text : string := "mild rash, then rash".
Definition rash_entities : list RawEntity :=
  [ fragment "rash" "MISC" 5 9 (6 # 10);
    fragment "rash" "MISC" 16 20 (6 # 10) ].

(** A word that cleans to a single character. *)
Definition short_entity : RawEntity := fragment "a." "DISEASE" 0 2 (5 # 10).

(** ** Notions used by the further properties *)

(** Every entity starts more than two characters after the end of the
    one before it. *)
Fixpoint separated (entities : list RawEntity) : Prop :=
  match entities with
  | a :: (b :: _) as rest => own_end a + 2 < own_start b /\ separated rest
  | _ => True
  end.

(** The fragments of a group, in input order, and the largest of their
    ends. *)
Definition group_fragments (g : MergeGroup) : list RawEntity :=
  group_first g :: group_tail g.

Definition largest_end (g : MergeGroup) : Z :=
  fold_left Z.max (map own_end (group_tail g)) (own_end (group_first g)).

(** The cleaned word of an entity. *)
Definition cleaned_word (e : RawEntity) : string := clean (Py.get (word e) "").

(** Entities filed in the named bucket [b]: accepted, and the mapper
    selects [b] for the label. *)
Definition mapped_to (b : Bucket) (e : RawEntity) : bool :=
  accepted e &&
  match map_category (label_of e) with
  | Some c => Bucket_eqb c b
  | None => false
  end.

(** A list without its repetitions, each element at the place of its
    first occurrence. *)
Definition first_occurrences (l : list string) : list string :=
  rev (nodup string_dec (rev l)).

(** Lines 155-156: append [t] unless it is already there. *)
Definition add_term (seen : list string) (t : string) : list string :=
  if Py.mem t seen then seen else seen ++ [t].

(** The last character of a string. *)
Fixpoint last_char (s : string) : option ascii :=
  match s with
  | EmptyString => None
  | String c EmptyString => Some c
  | String _ s' => last_char s'
  end.

(** The first character of a string. *)
Definition first_char (s : string) : option ascii :=
  match s with
  | EmptyString => None
  | String c _ => Some c
  end.

(** ** The file system seen by [app.py] and [sarvam_stt_translate.py] *)

(** Paths and the bytes stored under them. *)
Definition FileSystem : Type := list (string * string).

(** [open(path, 'rb').read()]: [None] when there is no such file. *)
Fixpoint fs_read (fs : FileSystem) (path : string) : option string :=
  match fs with
  | [] => None
  | (p, bytes) :: fs' => if String.eqb p path then Some bytes else fs_read fs' path
  end.

(** [os.unlink(path)]. *)
Definition fs_unlink (fs : FileSystem) (path : string) : FileSystem :=
  filter (fun entry => negb (String.eqb (fst entry) path)) fs.

(** Creating or overwriting [path] with [bytes]. *)
Definition fs_write (fs : FileSystem) (path bytes : string) : FileSystem :=
  (path, bytes) :: fs_unlink fs path.

(** [os.path.exists(path)]. *)
Definition fs_exists (fs : FileSystem) (path : string) : bool :=
  match fs_read fs path with
  | Some _ => true
  | None => false
  end.

(** [str(e)] of the [FileNotFoundError] raised by [open]. *)
Definition no_such_file (path : string) : string :=
  ("[Errno 2] No such file or directory: '" ++ path ++ "'")%string.

(** [os.path.basename(path)] (POSIX): what follows the last slash. *)
Fixpoint basename_from (acc path : string) : string :=
  match path with
  | EmptyString => acc
  | String c path' =>
      if Ascii.eqb c "/"%char then basename_from EmptyString path'
      else basename_from (acc ++ String c EmptyString)%string path'
  end.

Definition basename (path : string) : string := basename_from EmptyString path.

(** ** [app.py]: [transcribe_audio_with_sarvam] and [process_audio] *)

(** The dictionary returned by [transcribe_audio_with_sarvam]:
    [{"success": True, "data": {"text", "language_code"}}] or
    [{"success": False, "error", "details"}]. *)
Inductive SarvamResult : Type :=
| SarvamOk (text_out language_code : string)
| SarvamFailed (error details : string).

(** [transcribe_audio_with_sarvam(audio_file_path)].  [sarvam_post] is
    the speech service behind [requests.post], given the name and the
    bytes of the uploaded file.  [.get] on a value that is not an object
    raises, and the [except] clause reports [str(e)]. *)
Definition transcribe_audio_with_sarvam
  (sarvam_post : string -> string -> PostOutcome) (fs : FileSystem)
  (audio_file_path : string) : SarvamResult :=
  let failed := SarvamFailed "Failed to transcribe audio" in
  match fs_read fs audio_file_path with
  | None => failed (no_such_file audio_file_path)
  | Some audio_file =>
      match sarvam_post (basename audio_file_path) audio_file with
      | PostRaises e => failed e
      | PostReturns response =>
          if status_code response =? 200
          then
            match json response with
            | JsonRaises e => failed e
            | JsonValue (PyDict result) =>
                SarvamOk (Py.get (dict_get result "transcript") "")
                         (Py.get (dict_get result "language_code") "unknown")
            | JsonValue (PyList _) => failed "'list' object has no attribute 'get'"
            | JsonValue PyNone => failed "'NoneType' object has no attribute 'get'"
            end
          else
            SarvamFailed
              ("Sarvam API error: " ++ Py.str_int (status_code response))%string
              (text response)
      end
  end.

(** An uploaded file: [file.filename] and the bytes [file.save] writes. *)
Record FileStorage : Type := mkUpload {
  filename : string;
  upload : string
}.

(** [request.files[key]]. *)
Fixpoint files_get (files : list (string * FileStorage)) (key : string)
  : option FileStorage :=
  match files with
  | [] => None
  | (k, f) :: files' => if String.eqb k key then Some f else files_get files' key
  end.

(** The JSON documents [process_audio] answers with. *)
Inductive Body : Type :=
| BodyError (message : string) (error_details technical_details : option string)
| BodySuccess (transcription_text transcription_language : string)
    (medical_entities : CategorizedEntitySet) (audio_file : string).

(** The ["status"] entry of the document. *)
Definition body_status (b : Body) : string :=
  match b with
  | BodyError _ _ _ => "error"
  | BodySuccess _ _ _ _ => "success"
  end.

(** [process_audio()]: the answer (document and HTTP status) and the
    file system it leaves.  [request_files] is [request.files];
    [temp_filename] is the name [tempfile.NamedTemporaryFile] picks.
    The [finally] clause unlinks the temporary file on every path that
    created it. *)
Definition process_audio
  (sarvam_post : string -> string -> PostOutcome)
  (hf_post : string -> PostOutcome)
  (request_files : list (string * FileStorage)) (temp_filename : string)
  (fs : FileSystem) : (Body * Z) * FileSystem :=
  match files_get request_files "file" with
  | None => ((BodyError "No audio file provided" None None, 400), fs)
  | Some file =>
      if String.eqb (filename file) ""
      then ((BodyError "No audio file selected" None None, 400), fs)
      else
        let fs := fs_write fs temp_filename (upload file) in
        let answer :=
          match transcribe_audio_with_sarvam sarvam_post fs temp_filename with
          | SarvamFailed error details =>
              (BodyError "Failed to transcribe audio" (Some error) (Some details), 500)
          | SarvamOk text_out language_code =>
              match extract_medical_entities hf_post text_out with
              | AppFailure error details =>
                  (BodyError "Failed to extract medical entities"
                     (Some error) (Some details), 500)
              | AppSuccess entities_data =>
                  (BodySuccess text_out language_code entities_data
                     (basename temp_filename), 200)
              end
          end in
        let fs := if fs_exists fs temp_filename then fs_unlink fs temp_filename else fs in
        (answer, fs)
  end.

(** ** [sarvam_stt_translate.py]: [send_to_sarvam] *)

Definition WAVE_OUTPUT_FILENAME : string := "recording.wav".

(** [send_to_sarvam()]: the printed lines and the returned value
    ([PyNone] is [None]).  ["Translation result:"] is printed before the
    first [result.get], so it precedes the report of a [.get] that
    raises. *)
Definition send_to_sarvam (sarvam_post : string -> string -> PostOutcome)
  (fs : FileSystem) : list string * PyValue :=
  let error e := ("Error sending to Sarvam AI: " ++ e)%string in
  match fs_read fs WAVE_OUTPUT_FILENAME with
  | None => ([error (no_such_file WAVE_OUTPUT_FILENAME)], PyNone)
  | Some audio_file =>
      let out := ["Sending audio to Sarvam AI for translation..."] in
      match sarvam_post WAVE_OUTPUT_FILENAME audio_file with
      | PostRaises e => (out ++ [error e], PyNone)
      | PostReturns response =>
          if status_code response =? 200
          then
            match json response with
            | JsonRaises e => (out ++ [error e], PyNone)
            | JsonValue (PyDict result) =>
                let transcript :=
                  Py.get (dict_get result "transcript") "No transcript found" in
                let language_code :=
                  Py.get (dict_get result "language_code") "Unknown" in
                (out ++ [ "Translation result:";
                          ("Text: " ++ transcript)%string;
                          ("Detected Language: " ++ language_code)%string ],
                 PyDict result)
            | JsonValue (PyList _) =>
                (out ++ [ "Translation result:";
                          error "'list' object has no attribute 'get'" ], PyNone)
            | JsonValue PyNone =>
                (out ++ [ "Translation result:";
                          error "'NoneType' object has no attribute 'get'" ], PyNone)
            end
          else
            (out ++ [ ("Error: " ++ Py.str_int (status_code response))%string;
                      text response ], PyNone)
      end
  end.

(** * Properties *)
Example slice_plain : Py.slice "Patient has" 8 11 = "has".
Proof. reflexivity. Qed.

Example slice_negative : Py.slice "Patient has" (-3) 11 = "has".
Proof. reflexivity. Qed.

Example slice_crossed : Py.slice "Patient has" 5 2 = "".
Proof. reflexivity. Qed.

Example strip_then_rstrip : Py.rstrip (Py.strip "  pain.,  ") ".,;:!?" = "pain".
Proof. reflexivity. Qed.

Example str_int_503 : Py.str_int 503 = "503".
Proof. reflexivity. Qed.

Example contains_b_disease : Py.contains "B-DISEASE" "DISEASE" = true.
Proof. reflexivity. Qed.

(** ** The reconstruction loops *)

Section Reconstruct.

Variable original_text : string.

Lemma merge_scan_spec (rest : list RawEntity) :
  forall end_pos,
    exists run,
      rest = run ++ snd (merge_scan end_pos rest) /\
      absorbs end_pos run (fst (merge_scan end_pos rest)) /\
      stops_before (fst (merge_scan end_pos rest)) (snd (merge_scan end_pos rest)).
Proof.
  induction rest as [|next rest' IH]; intros end_pos.
  - exists []. simpl. repeat split. constructor.
  - simpl. destruct (Py.get (start next) 0 <=? end_pos + 2) eqn:Hgap.
    + destruct (IH (Z.max end_pos (Py.get (end_ next) (Py.get (start next) 0))))
        as (run & Hsplit & Habs & Hstop).
      exists (next :: run). simpl. repeat split.
      * now rewrite <- Hsplit.
      * constructor; [unfold own_start; lia | exact Habs].
      * exact Hstop.
    + exists []. simpl. repeat split.
      * constructor.
      * unfold own_start. lia.
Qed.

Lemma merge_scan_length (rest : list RawEntity) (end_pos : Z) :
  (List.length (snd (merge_scan end_pos rest)) <= List.length rest)%nat.
Proof.
  destruct (merge_scan_spec rest end_pos) as (run & Hsplit & _).
  rewrite Hsplit at 2. rewrite length_app. lia.
Qed.

(** Any fuel at least the number of remaining entities gives the same
    list. *)
Lemma reconstruct_loop_fuel (fuel : nat) :
  forall fuel' entities,
    (List.length entities <= fuel)%nat ->
    (List.length entities <= fuel')%nat ->
    reconstruct_loop fuel entities original_text =
    reconstruct_loop fuel' entities original_text.
Proof.
  induction fuel as [|fuel IH]; intros fuel' entities Hf Hf'.
  - destruct entities; [|simpl in Hf; lia]. now destruct fuel'.
  - destruct entities as [|current rest]; [now destruct fuel'|].
    destruct fuel' as [|fuel']; [simpl in Hf'; lia|].
    simpl in *.
    pose proof (merge_scan_length rest
                  (Py.get (end_ current) (Py.get (start current) 0))) as Hlen.
    destruct (merge_scan _ rest) as [end_pos rest']. simpl in Hlen.
    f_equal. apply IH; lia.
Qed.

(** One iteration of the outer loop. *)
Lemma reconstruct_cons (current : RawEntity) (rest : list RawEntity) :
  reconstruct (current :: rest) original_text =
  extract_word current (own_start current)
    (fst (merge_scan (own_end current) rest)) original_text
  :: reconstruct (snd (merge_scan (own_end current) rest)) original_text.
Proof.
  unfold reconstruct, own_end, own_start. simpl.
  pose proof (merge_scan_length rest
                (Py.get (end_ current) (Py.get (start current) 0))) as Hlen.
  destruct (merge_scan _ rest) as [end_pos rest']. simpl in *.
  f_equal. apply reconstruct_loop_fuel; lia.
Qed.

(** The list built is the image of the merge groups, one entity per
    group. *)
Lemma reconstruct_groups (entities : list RawEntity) :
  exists gs,
    merge_groups entities gs /\
    reconstruct entities original_text =
    map (fun g => extract_word (group_first g) (group_start g) (group_end g)
                    original_text) gs.
Proof.
  remember (List.length entities) as n eqn:Hn.
  revert entities Hn.
  induction n as [n IH] using (well_founded_induction lt_wf).
  intros [|current rest] Hn.
  - exists []. split; [constructor | reflexivity].
  - destruct (merge_scan_spec rest (own_end current)) as (run & Hsplit & Habs & Hstop).
    pose proof (merge_scan_length rest (own_end current)) as Hlen.
    destruct (IH (List.length (snd (merge_scan (own_end current) rest))))
      with (entities := snd (merge_scan (own_end current) rest))
      as (gs & Hgs & Hout).
    + subst n. simpl. lia.
    + reflexivity.
    + exists (mkGroup current run (own_start current)
                (fst (merge_scan (own_end current) rest)) :: gs).
      split.
      * rewrite Hsplit at 1. now constructor.
      * rewrite reconstruct_cons, Hout. reflexivity.
Qed.

(** *** The index loops compute the functional form *)

Lemma item_skipn (entities : list RawEntity) :
  forall i, (i < List.length entities)%nat ->
    exists x, item entities i = Returns x /\
              skipn i entities = x :: skipn (S i) entities.
Proof.
  induction entities as [|y entities IH]; intros i Hi; simpl in Hi; [lia|].
  destruct i as [|i].
  - exists y. split; reflexivity.
  - destruct (IH i) as (x & Hitem & Hskip); [lia|].
    exists x. split; [exact Hitem | exact Hskip].
Qed.

Lemma skipn_suffix (before after : list RawEntity) :
  skipn (List.length (before ++ after) - List.length after) (before ++ after) = after.
Proof.
  rewrite length_app, Nat.add_sub, skipn_app, skipn_all, Nat.sub_diag.
  reflexivity.
Qed.

Lemma inner_while_scan (entities : list RawEntity) (fuel : nat) :
  forall j end_pos,
    (j <= List.length entities)%nat ->
    (List.length entities - j <= fuel)%nat ->
    inner_while fuel entities j end_pos =
    Returns
      ((List.length entities
        - List.length (snd (merge_scan end_pos (skipn j entities))))%nat,
       fst (merge_scan end_pos (skipn j entities))).
Proof.
  assert (Hexit : forall fuel' j end_pos,
    (j <= List.length entities)%nat -> (j <? List.length entities)%nat = false ->
    inner_while fuel' entities j end_pos =
    Returns
      ((List.length entities
        - List.length (snd (merge_scan end_pos (skipn j entities))))%nat,
       fst (merge_scan end_pos (skipn j entities)))).
  { intros fuel' j end_pos Hj Hlt. apply Nat.ltb_ge in Hlt.
    assert (j = List.length entities) as -> by lia.
    rewrite skipn_all. simpl. rewrite Nat.sub_0_r.
    destruct fuel'; simpl; now rewrite Nat.ltb_irrefl. }
  induction fuel as [|fuel IH]; intros j end_pos Hj Hfuel.
  - apply Hexit; [exact Hj|]. apply Nat.ltb_ge. lia.
  - destruct (j <? List.length entities)%nat eqn:Hlt; [|now apply Hexit].
    simpl. rewrite Hlt. apply Nat.ltb_lt in Hlt.
    destruct (item_skipn entities j Hlt) as (next & -> & Hskip).
    pose proof (length_skipn j entities) as Hlen.
    rewrite Hskip in *.
    remember (skipn (S j) entities) as rest eqn:Hrest.
    simpl in *.
    destruct (Py.get (start next) 0 <=? end_pos + 2).
    + rewrite Nat.add_1_r, IH by lia. subst rest. reflexivity.
    + simpl. do 2 f_equal. lia.
Qed.

Lemma outer_while_reconstruct (entities : list RawEntity) (fuel : nat) :
  forall i reconstructed,
    (i <= List.length entities)%nat ->
    (List.length entities - i <= fuel)%nat ->
    outer_while fuel entities original_text i reconstructed =
    Returns (reconstructed ++ reconstruct (skipn i entities) original_text).
Proof.
  induction fuel as [|fuel IH]; intros i reconstructed Hi Hfuel.
  - assert (i = List.length entities) as -> by lia.
    simpl. rewrite Nat.ltb_irrefl, skipn_all. simpl. now rewrite app_nil_r.
  - simpl. destruct (i <? List.length entities)%nat eqn:Hlt.
    + apply Nat.ltb_lt in Hlt.
      destruct (item_skipn entities i Hlt) as (current & -> & Hskip).
      simpl. rewrite inner_while_scan by lia. simpl.
      rewrite Nat.add_1_r, Hskip, reconstruct_cons.
      unfold own_end, own_start.
      pose proof (length_skipn (S i) entities) as Hrest.
      pose proof (firstn_skipn (S i) entities) as Hcut.
      remember (skipn (S i) entities) as rest eqn:Erest. clear Erest.
      remember (Py.get (end_ current) (Py.get (start current) 0)) as end_pos
        eqn:Eend.
      destruct (merge_scan_spec rest end_pos) as (run & Hsplit & _).
      pose proof (merge_scan_length rest end_pos) as Hlen.
      destruct (merge_scan end_pos rest) as [end_pos' rest']. simpl in *.
      assert (Hj : skipn (List.length entities - List.length rest') entities = rest').
      { rewrite <- Hcut, Hsplit, app_assoc. apply skipn_suffix. }
      rewrite IH by lia. rewrite Hj, <- app_assoc. reflexivity.
    + apply Nat.ltb_ge in Hlt.
      assert (i = List.length entities) as -> by lia.
      rewrite skipn_all. simpl. now rewrite app_nil_r.
Qed.

(** [_reconstruct_entities] returns, and returns the functional form:
    no index is out of range and the fuel suffices. *)
Lemma _reconstruct_entities_returns (entities : list RawEntity) :
  _reconstruct_entities entities original_text =
  Returns (reconstruct entities original_text).
Proof.
  destruct entities as [|current rest]; [reflexivity|].
  unfold _reconstruct_entities.
  rewrite outer_while_reconstruct by (simpl; lia).
  reflexivity.
Qed.
(** The cut into maximal runs is unique. *)
Lemma absorbs_unique (run1 : list RawEntity) :
  forall run2 rest1 rest2 end_pos e1 e2,
    absorbs end_pos run1 e1 -> stops_before e1 rest1 ->
    absorbs end_pos run2 e2 -> stops_before e2 rest2 ->
    run1 ++ rest1 = run2 ++ rest2 ->
    run1 = run2 /\ rest1 = rest2 /\ e1 = e2.
Proof.
  induction run1 as [|x run1 IH]; intros run2 rest1 rest2 end_pos e1 e2 H1 S1 H2 S2 Heq.
  - inversion H1; subst. destruct run2 as [|y run2].
    + inversion H2; subst. simpl in Heq. auto.
    + inversion H2; subst. simpl in Heq. subst rest1. simpl in S1. lia.
  - inversion H1; subst. destruct run2 as [|y run2].
    + inversion H2; subst. simpl in Heq. subst rest2. simpl in S2. lia.
    + inversion H2; subst. simpl in Heq. injection Heq as -> Heq.
      destruct (IH run2 rest1 rest2 (Z.max end_pos (own_end y)) e1 e2)
        as (-> & -> & ->); auto.
Qed.

Lemma merge_groups_unique (entities : list RawEntity) :
  forall gs1 gs2,
    merge_groups entities gs1 -> merge_groups entities gs2 -> gs1 = gs2.
Proof.
  remember (List.length entities) as n eqn:Hn.
  revert entities Hn.
  induction n as [n IH] using (well_founded_induction lt_wf).
  intros entities Hn gs1 gs2 H1 H2.
  destruct H1 as [|c1 run1 rest1 e1 gs1 Ha1 Hs1 Hg1].
  - now inversion H2.
  - remember (c1 :: run1 ++ rest1) as entities eqn:Hent.
    destruct H2 as [|c2 run2 rest2 e2 gs2 Ha2 Hs2 Hg2]; [discriminate|].
    injection Hent as -> Happ.
    destruct (absorbs_unique run2 run1 rest2 rest1 (own_end c1) e2 e1)
      as (-> & -> & ->); auto.
    f_equal. apply (IH (List.length rest1)) with (entities := rest1); auto.
    subst n. simpl. rewrite length_app. lia.
Qed.

End Reconstruct.

(** ** The substring assignment *)

Lemma extract_word_attributes (current : RawEntity) (start_pos end_pos : Z)
  (original_text : string) :
  same_attributes (extract_word current start_pos end_pos original_text) current.
Proof.
  unfold extract_word, same_attributes.
  destruct ((start_pos <? Py.len original_text) && (end_pos <=? Py.len original_text));
    simpl; auto.
Qed.

Lemma extract_word_guarded (current : RawEntity) (start_pos end_pos : Z)
  (original_text : string) :
  start_pos < Py.len original_text -> end_pos <= Py.len original_text ->
  word (extract_word current start_pos end_pos original_text) =
  Some (Py.rstrip (Py.strip (Py.slice original_text start_pos end_pos))
          trailing_punctuation).
Proof.
  intros Hs He. unfold extract_word.
  apply Z.ltb_lt in Hs. apply Z.leb_le in He. now rewrite Hs, He.
Qed.

Lemma extract_word_skipped (current : RawEntity) (start_pos end_pos : Z)
  (original_text : string) :
  Py.len original_text <= start_pos \/ Py.len original_text < end_pos ->
  extract_word current start_pos end_pos original_text = current.
Proof.
  intros H. unfold extract_word.
  destruct (start_pos <? Py.len original_text) eqn:Hs; [|reflexivity].
  destruct (end_pos <=? Py.len original_text) eqn:He; [|reflexivity].
  apply Z.ltb_lt in Hs. apply Z.leb_le in He. lia.
Qed.

(** Inside the text a slice is the plain substring. *)
Lemma slice_in_bounds (s : string) (a b : Z) :
  0 <= a <= Py.len s -> 0 <= b <= Py.len s ->
  Py.slice s a b = substring (Z.to_nat a) (Z.to_nat (b - a)) s.
Proof.
  intros Ha Hb. unfold Py.slice, Py.slice_bound.
  destruct (a <? 0) eqn:Ea; [apply Z.ltb_lt in Ea; lia|].
  destruct (b <? 0) eqn:Eb; [apply Z.ltb_lt in Eb; lia|].
  now rewrite !Z.min_l by lia.
Qed.

Lemma Forall2_map_image {A B : Type} (P : A -> B -> Prop) (f : A -> B) (l : list A) :
  (forall a, P a (f a)) -> Forall2 P l (map f l).
Proof.
  intros H. induction l; simpl; constructor; auto.
Qed.

(** The reconstruction described group by group, for any input list:
    it returns, with one entity per merge group. *)
Lemma reconstruct_by_groups (entities : list RawEntity) (original_text : string) :
  exists gs out,
    _reconstruct_entities entities original_text = Returns out /\
    merge_groups entities gs /\
    Forall2
      (fun g out =>
         same_attributes out (group_first g) /\
         (group_start g < Py.len original_text ->
          group_end g <= Py.len original_text ->
          word out =
          Some (Py.rstrip
                  (Py.strip (Py.slice original_text (group_start g) (group_end g)))
                  trailing_punctuation)) /\
         (Py.len original_text <= group_start g \/
          Py.len original_text < group_end g ->
          out = group_first g))
      gs out.
Proof.
  destruct (reconstruct_groups original_text entities) as (gs & Hgs & Hout).
  exists gs, (reconstruct entities original_text).
  split; [apply _reconstruct_entities_returns|].
  split; [exact Hgs|]. rewrite Hout.
  apply Forall2_map_image. intros g. repeat split.
  - apply extract_word_attributes.
  - apply extract_word_attributes.
  - apply extract_word_attributes.
  - apply extract_word_attributes.
  - apply extract_word_attributes.
  - apply extract_word_guarded.
  - apply extract_word_skipped.
Qed.

(** ** The aggregation loop *)

Lemma mem_In (x : string) (l : list string) : Py.mem x l = true <-> In x l.
Proof.
  induction l as [|y l IH]; simpl.
  - split; [discriminate | tauto].
  - rewrite orb_true_iff, IH, String.eqb_eq. split; intros [H|H]; auto.
Qed.

Lemma NoDup_snoc (x : string) (l : list string) :
  NoDup l -> ~ In x l -> NoDup (l ++ [x]).
Proof.
  induction 1 as [|y l Hy Hl IH]; simpl; intros Hx.
  - constructor; [tauto | constructor].
  - constructor.
    + rewrite in_app_iff. simpl. intros [H|[H|[]]]; [tauto | subst; tauto].
    + apply IH. tauto.
Qed.

Lemma bucket_bucket_append (m : CategorizedEntitySet) (c b : Bucket) (w : string) :
  bucket (bucket_append m c w) b =
  if Bucket_eqb c b then bucket m b ++ [w] else bucket m b.
Proof. destruct c, b; reflexivity. Qed.

Lemma other_bucket_append (m : CategorizedEntitySet) (c : Bucket) (w : string) :
  set_other (bucket_append m c w) = set_other m.
Proof. destruct c; reflexivity. Qed.

Lemma bucket_other_append (m : CategorizedEntitySet) (r : OtherRecord) (b : Bucket) :
  bucket (other_append m r) b = bucket m b.
Proof. destruct b; reflexivity. Qed.

Lemma Bucket_eqb_eq (a b : Bucket) : Bucket_eqb a b = true <-> a = b.
Proof. destruct a, b; simpl; split; congruence. Qed.

(** The loop body, by cases on the filters and on the mapper. *)
Lemma categorize_step_cases (m : CategorizedEntitySet) (e : RawEntity) :
  categorize_step m e =
  if accepted e
  then
    match map_category (label_of e) with
    | Some category =>
        if Py.mem (clean (Py.get (word e) "")) (bucket m category)
        then m
        else bucket_append m category (clean (Py.get (word e) ""))
    | None => other_append m (other_record e)
    end
  else m.
Proof.
  unfold categorize_step, accepted, other_record.
  destruct (Py.truthy (Py.get (word e) "")); simpl; [|reflexivity].
  destruct (Py.truthy (label_of e)); simpl; [|reflexivity].
  destruct (Py.len (clean (Py.get (word e) "")) <? 2); reflexivity.
Qed.

Lemma categorize_snoc (l : list RawEntity) (e : RawEntity) :
  categorize (l ++ [e]) = categorize_step (categorize l) e.
Proof. unfold categorize. now rewrite fold_left_app. Qed.

(** The loop of [app.py] is the loop of [process_medical_text]. *)
Lemma app_step_eq (m : CategorizedEntitySet) (e : RawEntity) :
  app_step m e = categorize_step m e.
Proof. reflexivity. Qed.

Lemma app_loop_eq (raw_entities : list RawEntity) :
  fold_left app_step raw_entities empty_set = categorize raw_entities.
Proof. reflexivity. Qed.

(** The invariant of the aggregation loop. *)
Lemma categorize_invariant (l : list RawEntity) :
  (forall b, NoDup (bucket (categorize l) b)) /\
  (forall b t, In t (bucket (categorize l) b) ->
     exists e, In e l /\ accepted e = true /\
               clean (Py.get (word e) "") = t /\
               map_category (label_of e) = Some b) /\
  set_other (categorize l) = map other_record (filter routed_to_other l).
Proof.
  induction l as [|e l (IHdup & IHsrc & IHother)] using rev_ind.
  - repeat split.
    + intros []; constructor.
    + intros [] t [].
  - rewrite categorize_snoc, categorize_step_cases.
    rewrite filter_app, map_app. unfold routed_to_other at 2. simpl.
    assert (Hweak : forall b t,
      (exists e0, In e0 l /\ accepted e0 = true /\
                  clean (Py.get (word e0) "") = t /\
                  map_category (label_of e0) = Some b) ->
      exists e0, In e0 (l ++ [e]) /\ accepted e0 = true /\
                 clean (Py.get (word e0) "") = t /\
                 map_category (label_of e0) = Some b).
    { intros b t (e0 & Hin & H). exists e0. split; [|exact H].
      apply in_or_app. now left. }
    destruct (accepted e) eqn:Hacc; simpl.
    + destruct (map_category (label_of e)) as [c|] eqn:Hcat; simpl.
      * destruct (Py.mem _ (bucket (categorize l) c)) eqn:Hmem.
        -- repeat split; auto. now rewrite app_nil_r.
        -- assert (Hnot : ~ In (clean (Py.get (word e) "")) (bucket (categorize l) c)).
           { rewrite <- mem_In. congruence. }
           repeat split.
           ++ intros b. rewrite bucket_bucket_append.
              destruct (Bucket_eqb c b) eqn:Hcb; [|apply IHdup].
              apply Bucket_eqb_eq in Hcb. subst b. now apply NoDup_snoc.
           ++ intros b t. rewrite bucket_bucket_append.
              destruct (Bucket_eqb c b) eqn:Hcb; [|now auto].
              apply Bucket_eqb_eq in Hcb. subst b.
              rewrite in_app_iff. intros [Hin|[<-|[]]]; [now auto|].
              exists e. repeat split; auto. apply in_or_app. right. now left.
           ++ now rewrite other_bucket_append, app_nil_r.
      * repeat split.
        -- intros b. rewrite bucket_other_append. apply IHdup.
        -- intros b t. rewrite bucket_other_append. auto.
        -- simpl. now rewrite IHother.
    + repeat split; auto. now rewrite app_nil_r.
Qed.

(** ** The category mapper *)

Lemma prefix_iff (sub s : string) :
  prefix sub s = true <-> exists after, s = (sub ++ after)%string.
Proof.
  revert s. induction sub as [|a sub IH]; intros s.
  - split; [intros _; now exists s | now destruct s].
  - destruct s as [|b s]; simpl.
    + split; [discriminate | intros (after & H); discriminate].
    + destruct (ascii_dec a b) as [->|Hab].
      * rewrite IH. split; intros (after & H); exists after; congruence.
      * split; [discriminate | intros (after & H); congruence].
Qed.

Lemma contains_iff (label key : string) :
  Py.contains label key = true <-> occurs_in key label.
Proof.
  unfold occurs_in. induction label as [|c label IH]; cbn [Py.contains].
  - rewrite orb_false_r, prefix_iff. split.
    + intros (after & H). now exists EmptyString, after.
    + intros ([|c before] & after & H); [now exists after | discriminate].
  - rewrite orb_true_iff, prefix_iff, IH. split.
    + intros [(after & H)|(before & after & H)].
      * now exists EmptyString, after.
      * exists (String c before), after. simpl. now rewrite H.
    + intros ([|c' before] & after & H).
      * left. now exists after.
      * right. exists before, after. simpl in H. congruence.
Qed.

Lemma first_match_Some (items : list (string * Bucket)) (label : string) (b : Bucket) :
  first_match items label = Some b <->
  exists before key after,
    items = before ++ (key, b) :: after /\
    occurs_in key label /\
    forall k v, In (k, v) before -> ~ occurs_in k label.
Proof.
  induction items as [|[key value] items IH]; simpl.
  - split; [discriminate|]. intros (before & k & after & H & _).
    now destruct before.
  - destruct (Py.contains label key) eqn:Hc.
    + apply contains_iff in Hc. split.
      * intros [= ->]. exists [], key, items. split; [reflexivity|].
        split; [exact Hc|]. intros k v [].
      * intros ([|[k0 v0] before] & k & after & H & Hocc & Hnone).
        -- simpl in H. congruence.
        -- simpl in H. injection H as Hk Hv Hi.
           exfalso. apply (Hnone k0 v0); [now left | now rewrite <- Hk].
    + assert (Hn : ~ occurs_in key label).
      { rewrite <- contains_iff. congruence. }
      rewrite IH. split.
      * intros (before & k & after & -> & Hocc & Hnone).
        exists ((key, value) :: before), k, after. repeat split; auto.
        intros k' v' [[= <- <-]|Hin]; [exact Hn | eauto].
      * intros ([|[k0 v0] before] & k & after & H & Hocc & Hnone).
        -- simpl in H. injection H as Hk Hv Hi. exfalso. apply Hn. now rewrite Hk.
        -- simpl in H. injection H as Hk Hv Hi.
           exists before, k, after. split; [exact Hi|]. split; [exact Hocc|].
           intros k' v' Hin. apply (Hnone k' v'). now right.
Qed.

Lemma first_match_None (items : list (string * Bucket)) (label : string) :
  first_match items label = None <->
  forall k v, In (k, v) items -> ~ occurs_in k label.
Proof.
  induction items as [|[key value] items IH]; simpl.
  - split; [intros _ k v [] | reflexivity].
  - destruct (Py.contains label key) eqn:Hc.
    + apply contains_iff in Hc. split; [discriminate|].
      intros H. exfalso. apply (H key value); [now left | exact Hc].
    + assert (Hn : ~ occurs_in key label).
      { rewrite <- contains_iff. congruence. }
      rewrite IH. split.
      * intros H k v [[= <- <-]|Hin]; [exact Hn | eauto].
      * intros H k v Hin. apply (H k v). now right.
Qed.

(** [merge_groups_cons] with the list and the start given up to equality. *)
Lemma merge_groups_intro (entities : list RawEntity) (current : RawEntity)
  (run rest : list RawEntity) (start_pos end_pos : Z) (gs : list MergeGroup) :
  entities = current :: run ++ rest ->
  start_pos = own_start current ->
  absorbs (own_end current) run end_pos ->
  stops_before end_pos rest ->
  merge_groups rest gs ->
  merge_groups entities (mkGroup current run start_pos end_pos :: gs).
Proof. intros -> ->. apply merge_groups_cons. Qed.

(** A single fragment is a group of its own. *)
Lemma merge_groups_single (e : RawEntity) :
  merge_groups [e] [mkGroup e [] (own_start e) (own_end e)].
Proof.
  apply (merge_groups_intro [e] e [] []);
    [reflexivity | reflexivity | constructor | exact I | constructor].
Qed.

(** ** The two pipelines *)

(** On a successful response carrying a list, [app.py] categorizes the
    raw list and [process_medical_text] the reconstructed list. *)
Lemma pipelines_on_a_list (hf_post : string -> PostOutcome) (text_in body : string)
  (raw : list RawEntity) :
  hf_post text_in = PostReturns (mkResponse 200 body (JsonValue (PyList raw))) ->
  extract_medical_entities hf_post text_in = AppSuccess (categorize raw) /\
  snd (process_medical_text hf_post text_in) =
  Returns (Entities (categorize (reconstruct raw text_in))).
Proof.
  intros H. unfold extract_medical_entities, process_medical_text, extract_entities.
  rewrite H. simpl. rewrite _reconstruct_entities_returns. split; reflexivity.
Qed.

(** C1. The claim asks that [extract_medical_entities] of [app.py] return
    the same categorized set as [process_medical_text], which reconstructs
    spans first.  It does not: on the two fragments of "hypertension",
    located at offsets 12-17 and 17-24 of the transcript, [app.py] files
    the raw fragments "hyper" and "tension" while [process_medical_text]
    files the reconstructed word. *)
Theorem extract_medical_entities_skips_reconstruction :
  extract_medical_entities (always (ok_response aligned_entities)) scenario1_text =
  AppSuccess (mkSet ["hyper"; "tension"] [] [] [] []) /\
  snd (process_medical_text (always (ok_response aligned_entities)) scenario1_text) =
  Returns (Entities (mkSet ["hypertension"] [] [] [] [])).
Proof. split; reflexivity. Qed.

(** ** Scenario 1 *)

(** C2, as stated, fails: with the offsets 20-25 and 25-32 the merged
    window ends at 32, past the 31 characters of the transcript, so the
    word is not rebuilt and "hypertension" is not what is filed. *)
Lemma scenario1_not_reconstructed :
  (forall out,
     _reconstruct_entities scenario1_entities scenario1_text = Returns out ->
     map word out <> [Some "hypertension"]) /\
  (forall m,
     snd (process_medical_text (always (ok_response scenario1_entities))
            scenario1_text) = Returns (Entities m) ->
     set_diseases m <> ["hypertension"]).
Proof.
  split.
  - intros out H. vm_compute in H. injection H as <-. discriminate.
  - intros m H. vm_compute in H. injection H as <-. discriminate.
Qed.

(** C2, amended.  On the input of scenario 1 the two fragments merge into
    one group whose window [[20, 32)] passes the end of the 31-character
    transcript: the single output entity keeps the first fragment's word
    "hyper" and [diseases] is ["hyper"].  With the fragments at the
    offsets of the word, 12-17 and 17-24, the single output entity has
    word "hypertension" and [diseases] is ["hypertension"]. *)
Theorem scenario1_result :
  Py.len scenario1_text = 31 /\
  merge_groups scenario1_entities
    [mkGroup (fragment "hyper" "DISEASE" 20 25 (9 # 10))
             [fragment "tension" "DISEASE" 25 32 (8 # 10)] 20 32] /\
  _reconstruct_entities scenario1_entities scenario1_text =
  Returns [fragment "hyper" "DISEASE" 20 25 (9 # 10)] /\
  snd (process_medical_text (always (ok_response scenario1_entities)) scenario1_text) =
  Returns (Entities (mkSet ["hyper"] [] [] [] [])) /\
  _reconstruct_entities aligned_entities scenario1_text =
  Returns [fragment "hypertension" "DISEASE" 12 17 (9 # 10)] /\
  snd (process_medical_text (always (ok_response aligned_entities)) scenario1_text) =
  Returns (Entities (mkSet ["hypertension"] [] [] [] [])).
Proof.
  split; [reflexivity|]. split; [|repeat split; reflexivity].
  apply (merge_groups_intro _ _ _ []);
    [reflexivity | reflexivity | | exact I | constructor].
  apply absorbs_cons; [vm_compute; discriminate|]. apply absorbs_nil.
Qed.

(** ** Windows outside the text *)

(** C3, as stated, fails: a group whose start is negative, hence outside
    [[0, len(text)]], passes the guard of the code, and its word is
    replaced by the slice [text[-5:9]]. *)
Lemma negative_start_rewrites_word :
  merge_groups [cough_entity] [mkGroup cough_entity [] (-5) 9] /\
  ~ (0 <= -5 <= Py.len cough_text) /\
  _reconstruct_entities [cough_entity] cough_text =
  Returns [set_word cough_entity "cough"] /\
  word (set_word cough_entity "cough") <> word cough_entity.
Proof.
  split; [|split; [lia | split; [reflexivity | discriminate]]].
  apply (merge_groups_single cough_entity).
Qed.

(** C3, amended.  For every entity list and original text, whenever the
    start of a merge group is at or past [len(original_text)], or its end
    is past [len(original_text)], the output entity of the group is the
    first fragment unchanged (no substring assignment); the
    reconstruction returns its list: no index or slice fails. *)
Theorem reconstruct_past_end_keeps_fragment (entities : list RawEntity)
  (original_text : string) :
  exists gs out,
    _reconstruct_entities entities original_text = Returns out /\
    merge_groups entities gs /\
    Forall2 (group_kept original_text) gs out.
Proof.
  destruct (reconstruct_by_groups entities original_text)
    as (gs & out & Hret & Hgs & Hall).
  exists gs, out. split; [exact Hret|]. split; [exact Hgs|].
  eapply Forall2_impl; [|exact Hall].
  intros g o (_ & _ & Hkept). exact Hkept.
Qed.

(** ** Merge groups *)

(** C6, as stated, fails twice.  The code strips surrounding whitespace
    before the trailing punctuation: a window starting on the space
    before "fever" yields "fever", not the slice " fever".  And a group
    that starts exactly at [len(text)] is within [[0, len(text)]] but
    keeps its own word instead of the empty slice. *)
Lemma reconstructed_word_differs_from_slice :
  (merge_groups [fever_entity] [mkGroup fever_entity [] 4 10] /\
   0 <= 4 <= Py.len fever_text /\ 0 <= 10 <= Py.len fever_text /\
   Py.rstrip (Py.slice fever_text 4 10) trailing_punctuation = " fever" /\
   _reconstruct_entities [fever_entity] fever_text =
   Returns [set_word fever_entity "fever"]) /\
  (merge_groups [flu_entity] [mkGroup flu_entity [] 3 3] /\
   0 <= 3 <= Py.len flu_text /\
   Py.rstrip (Py.slice flu_text 3 3) trailing_punctuation = "" /\
   _reconstruct_entities [flu_entity] flu_text = Returns [flu_entity] /\
   word flu_entity = Some "flu").
Proof.
  split.
  - split; [apply (merge_groups_single fever_entity)|].
    vm_compute. repeat split; discriminate.
  - split; [apply (merge_groups_single flu_entity)|].
    vm_compute. repeat split; discriminate.
Qed.

(** C6, amended.  For every entity list sorted ascending by start and
    every text: the merge groups are the maximal runs in which each next
    entity's start is at most the current merged end plus 2, the merged
    end being extended to the maximum of itself and the next end; the
    output lists one entity per group, in input order; every output
    entity has the [entity], [entity_group], [score], [start] and [end]
    of the first fragment of its group; for each group with
    [0 <= start < len(text)] and [0 <= end <= len(text)] the output word
    is [text[start:end]] stripped of surrounding whitespace and then of
    trailing characters in [.,;:!?]; the empty input yields the empty
    output.  (The proof does not use the order of the input.) *)
Theorem reconstruct_sorted_groups (entities : list RawEntity)
  (original_text : string) :
  sorted_by_start entities ->
  exists gs out,
    _reconstruct_entities entities original_text = Returns out /\
    merge_groups entities gs /\
    Forall2 (group_output original_text) gs out /\
    _reconstruct_entities [] original_text = Returns [].
Proof.
  intros _.
  destruct (reconstruct_by_groups entities original_text)
    as (gs & out & Hret & Hgs & Hall).
  exists gs, out. split; [exact Hret|]. split; [exact Hgs|]. split; [|reflexivity].
  eapply Forall2_impl; [|exact Hall].
  intros g o (Hattr & Hword & _). split; [exact Hattr|].
  intros Hs He. apply Hword; lia.
Qed.

Lemma reconstruct_sorted_groups_witness :
  sorted_by_start aligned_entities /\
  exists gs out,
    _reconstruct_entities aligned_entities scenario1_text = Returns out /\
    merge_groups aligned_entities gs /\
    Forall2 (group_output scenario1_text) gs out /\
    _reconstruct_entities [] scenario1_text = Returns [].
Proof.
  assert (Hsorted : sorted_by_start aligned_entities).
  { unfold sorted_by_start, aligned_entities.
    repeat constructor. vm_compute. discriminate. }
  split; [exact Hsorted|].
  exact (reconstruct_sorted_groups aligned_entities scenario1_text Hsorted).
Defined.

(** ** Buckets *)

(** C4, as stated, fails: deduplication is per bucket, so the same word
    met under a label of the diseases and under a label of the
    medications is filed in both buckets. *)
Lemma aspirin_in_two_buckets :
  snd (process_medical_text (always (ok_response aspirin_entities)) aspirin_text) =
  Returns (Entities (mkSet ["aspirin"] ["aspirin"] [] [] [])) /\
  In "aspirin" (bucket (mkSet ["aspirin"] ["aspirin"] [] [] []) diseases) /\
  In "aspirin" (bucket (mkSet ["aspirin"] ["aspirin"] [] [] []) medications).
Proof. repeat split; simpl; auto. Qed.

Lemma categorize_step_keeps (m : CategorizedEntitySet) (e : RawEntity)
  (b : Bucket) (t : string) :
  In t (bucket m b) -> In t (bucket (categorize_step m e) b).
Proof.
  intros Hin. rewrite categorize_step_cases.
  destruct (accepted e); [|exact Hin].
  destruct (map_category (label_of e)) as [c|].
  - destruct (Py.mem _ (bucket m c)); [exact Hin|].
    rewrite bucket_bucket_append.
    destruct (Bucket_eqb c b); [apply in_or_app; now left | exact Hin].
  - now rewrite bucket_other_append.
Qed.

Lemma categorize_step_files (m : CategorizedEntitySet) (e : RawEntity) (b : Bucket) :
  accepted e = true ->
  map_category (label_of e) = Some b ->
  In (clean (Py.get (word e) "")) (bucket (categorize_step m e) b).
Proof.
  intros Hacc Hcat. rewrite categorize_step_cases, Hacc, Hcat.
  destruct (Py.mem _ (bucket m b)) eqn:Hmem; [now apply mem_In|].
  rewrite bucket_bucket_append.
  replace (Bucket_eqb b b) with true by (symmetry; now apply Bucket_eqb_eq).
  apply in_or_app. right. now left.
Qed.

(** No accepted and mapped entity is lost. *)
Lemma categorize_complete (l : list RawEntity) (e : RawEntity) (b : Bucket) :
  In e l ->
  accepted e = true ->
  map_category (label_of e) = Some b ->
  In (clean (Py.get (word e) "")) (bucket (categorize l) b).
Proof.
  induction l as [|x l IH] using rev_ind; intros Hin Hacc Hcat; [destruct Hin|].
  rewrite categorize_snoc.
  apply in_app_or in Hin as [Hin|[<-|[]]].
  - apply categorize_step_keeps. now apply IH.
  - now apply categorize_step_files.
Qed.

(** C4, amended.  A term string is in a named bucket of the final set
    exactly when some accepted entity of the categorized list (word and
    label not empty, cleaned word of at least two characters) has this
    cleaned word and a label that the Category Mapper maps to this
    bucket.  Hence a term string appears in two different named buckets
    exactly when two distinct accepted entities of the categorized list
    have this cleaned word and labels mapped to those two buckets:
    deduplication is per bucket, not across buckets.
    ([process_medical_text] categorizes the list returned by
    [_reconstruct_entities], [app.py] categorizes the raw list.) *)
Theorem shared_term_has_two_sources (entities : list RawEntity) (t : string)
  (b1 b2 : Bucket) :
  b1 <> b2 ->
  (forall b,
     In t (bucket (categorize entities) b) <->
     exists e,
       In e entities /\ accepted e = true /\
       clean (Py.get (word e) "") = t /\
       map_category (label_of e) = Some b) /\
  (In t (bucket (categorize entities) b1) /\
   In t (bucket (categorize entities) b2) <->
   exists e1 e2,
     In e1 entities /\ In e2 entities /\ e1 <> e2 /\
     accepted e1 = true /\ accepted e2 = true /\
     clean (Py.get (word e1) "") = t /\ clean (Py.get (word e2) "") = t /\
     map_category (label_of e1) = Some b1 /\
     map_category (label_of e2) = Some b2).
Proof.
  intros Hneq.
  assert (Hiff : forall b,
    In t (bucket (categorize entities) b) <->
    exists e,
      In e entities /\ accepted e = true /\
      clean (Py.get (word e) "") = t /\
      map_category (label_of e) = Some b).
  { intros b. split.
    - destruct (categorize_invariant entities) as (_ & Hsrc & _). apply Hsrc.
    - intros (e & Hin & Hacc & <- & Hcat). now apply categorize_complete. }
  split; [exact Hiff|]. split.
  - intros (H1 & H2).
    apply Hiff in H1 as (e1 & Hin1 & Hacc1 & Hw1 & Hc1).
    apply Hiff in H2 as (e2 & Hin2 & Hacc2 & Hw2 & Hc2).
    exists e1, e2. repeat split; auto.
    intros ->. congruence.
  - intros (e1 & e2 & Hin1 & Hin2 & _ & Hacc1 & Hacc2 & Hw1 & Hw2 & Hc1 & Hc2).
    split; apply Hiff; [now exists e1 | now exists e2].
Qed.

Lemma shared_term_has_two_sources_witness :
  (forall b,
     In "aspirin" (bucket (categorize aspirin_entities) b) <->
     exists e,
       In e aspirin_entities /\ accepted e = true /\
       clean (Py.get (word e) "") = "aspirin" /\
       map_category (label_of e) = Some b) /\
  (In "aspirin" (bucket (categorize aspirin_entities) diseases) /\
   In "aspirin" (bucket (categorize aspirin_entities) medications) <->
   exists e1 e2,
     In e1 aspirin_entities /\ In e2 aspirin_entities /\ e1 <> e2 /\
     accepted e1 = true /\ accepted e2 = true /\
     clean (Py.get (word e1) "") = "aspirin" /\
     clean (Py.get (word e2) "") = "aspirin" /\
     map_category (label_of e1) = Some diseases /\
     map_category (label_of e2) = Some medications).
Proof.
  apply (shared_term_has_two_sources aspirin_entities "aspirin" diseases medications).
  discriminate.
Defined.

(** C8.  For every transcript and raw entity list, each named bucket of
    the final set holds each term at most once, and [other] holds one
    record per accepted entity that no key of the map matches, in input
    order and without any deduplication. *)
Theorem named_buckets_unique_other_not (raw : list RawEntity)
  (transcription : string) :
  exists processed_entities m,
    _reconstruct_entities raw transcription = Returns processed_entities /\
    process_raw (PyList raw) transcription = Returns (Entities m) /\
    (forall b, NoDup (bucket m b)) /\
    set_other m = map other_record (filter routed_to_other processed_entities).
Proof.
  exists (reconstruct raw transcription),
         (categorize (reconstruct raw transcription)).
  split; [apply _reconstruct_entities_returns|].
  split; [unfold process_raw; now rewrite _reconstruct_entities_returns|].
  destruct (categorize_invariant (reconstruct raw transcription))
    as (Hdup & _ & Hother).
  split; assumption.
Qed.

(** Two equal records stay in [other]; the named buckets stay empty. *)
Example other_keeps_duplicates :
  snd (process_medical_text (always (ok_response rash_entities)) rash_text) =
  Returns (Entities (mkSet [] [] [] []
                       [mkOther "rash" "MISC" (6 # 10); mkOther "rash" "MISC" (6 # 10)])).
Proof. reflexivity. Qed.

(** ** Degenerate entities *)

Lemma degenerate_not_accepted (e : RawEntity) :
  Py.get (word e) "" = "" \/
  (Py.get (entity e) "" = "" /\ Py.get (entity_group e) "" = "") \/
  Py.len (clean (Py.get (word e) "")) < 2 ->
  accepted e = false.
Proof.
  unfold accepted, label_of. intros [H|[[H1 H2]|H]].
  - now rewrite H.
  - rewrite H1, H2. simpl. now rewrite andb_false_r.
  - apply Z.ltb_lt in H. rewrite H. simpl. apply andb_false_r.
Qed.

(** C9.  An entity whose word is empty, or whose [entity] and
    [entity_group] are both empty, or whose cleaned word has fewer than
    two characters, leaves every bucket as it was: the loop body returns
    the set unchanged, and the result of the whole loop is the result on
    the list without this entity.  The loop body is a total function:
    nothing is raised. *)
Theorem degenerate_entity_dropped (e : RawEntity) :
  Py.get (word e) "" = "" \/
  (Py.get (entity e) "" = "" /\ Py.get (entity_group e) "" = "") \/
  Py.len (clean (Py.get (word e) "")) < 2 ->
  (forall m, categorize_step m e = m) /\
  (forall before after,
     categorize (before ++ e :: after) = categorize (before ++ after)).
Proof.
  intros H. apply degenerate_not_accepted in H.
  assert (Hstep : forall m, categorize_step m e = m).
  { intros m. now rewrite categorize_step_cases, H. }
  split; [exact Hstep|].
  intros before after. unfold categorize.
  rewrite !fold_left_app. simpl. now rewrite Hstep.
Qed.

Lemma degenerate_entity_dropped_witness :
  (forall m, categorize_step m short_entity = m) /\
  (forall before after,
     categorize (before ++ short_entity :: after) = categorize (before ++ after)).
Proof.
  apply (degenerate_entity_dropped short_entity).
  right. right. vm_compute. reflexivity.
Defined.

(** ** The category mapper *)

(** C7.  The mapper walks the map in its declared order and returns the
    bucket of the first key that occurs in the label as a substring, or
    [None] when no key occurs; "Sign_symptom" maps to symptoms and
    "B-DISEASE" to diseases. *)
Theorem map_category_first_substring_match (label : string) :
  entity_category_map =
  [ ("DISEASE", diseases); ("DRUG", medications); ("SYMPTOM", symptoms);
    ("PROCEDURE", procedures); ("Diagnostic_procedure", procedures);
    ("Medication", medications); ("Sign_symptom", symptoms) ] /\
  (forall b,
     map_category label = Some b <->
     exists before key after,
       entity_category_map = before ++ (key, b) :: after /\
       occurs_in key label /\
       forall k v, In (k, v) before -> ~ occurs_in k label) /\
  (map_category label = None <->
   forall k v, In (k, v) entity_category_map -> ~ occurs_in k label) /\
  map_category "Sign_symptom" = Some symptoms /\
  map_category "B-DISEASE" = Some diseases.
Proof.
  split; [reflexivity|]. split; [|split; [|split; reflexivity]].
  - intros b. apply first_match_Some.
  - apply first_match_None.
Qed.

(** ** Gateway failures and empty answers *)

(** C5, as stated, fails for [process_medical_text]: the failure value
    is the same whatever the status code and the body of the response,
    so it carries neither. *)
Lemma failure_value_forgets_status :
  snd (process_medical_text (always response_503) scenario1_text) =
  Returns (Error "Failed to extract entities - API error") /\
  snd (process_medical_text (always response_500) scenario1_text) =
  snd (process_medical_text (always response_503) scenario1_text) /\
  status_code response_500 <> status_code response_503 /\
  text response_500 <> text response_503.
Proof. repeat split; discriminate. Qed.

(** C5, amended.  For every response of the extraction gateway with a
    status other than 200, [process_medical_text] does not reach
    reconstruction or aggregation: it prints the status code and the raw
    body and returns the failure value
    [{"error": "Failed to extract entities - API error"}], which differs
    from every categorized set; [extract_medical_entities] of [app.py]
    returns a failure whose [error] holds the status code and whose
    [details] is the raw body. *)
Theorem non_success_response_fails (hf_post : string -> PostOutcome)
  (transcription : string) (response : Response) :
  hf_post transcription = PostReturns response ->
  status_code response <> 200 ->
  process_medical_text hf_post transcription =
  ([ "Sending text to Hugging Face Medical NER API...";
     ("Error: " ++ Py.str_int (status_code response))%string;
     text response ],
   Returns (Error "Failed to extract entities - API error")) /\
  (forall m,
     snd (process_medical_text hf_post transcription) <> Returns (Entities m)) /\
  extract_medical_entities hf_post transcription =
  AppFailure ("Hugging Face API error: " ++ Py.str_int (status_code response))%string
             (text response).
Proof.
  intros Hpost Hstatus. apply Z.eqb_neq in Hstatus.
  unfold process_medical_text, extract_entities, extract_medical_entities.
  rewrite Hpost, Hstatus. simpl. repeat split. discriminate.
Qed.

Lemma non_success_response_fails_witness :
  process_medical_text (always response_503) scenario1_text =
  ([ "Sending text to Hugging Face Medical NER API...";
     "Error: 503"; "Service Unavailable" ],
   Returns (Error "Failed to extract entities - API error")) /\
  (forall m,
     snd (process_medical_text (always response_503) scenario1_text) <>
     Returns (Entities m)) /\
  extract_medical_entities (always response_503) scenario1_text =
  AppFailure "Hugging Face API error: 503" "Service Unavailable".
Proof.
  apply (non_success_response_fails (always response_503) scenario1_text response_503).
  - reflexivity.
  - vm_compute. discriminate.
Defined.

(** C10.  When the gateway answers 200 with the empty list,
    [process_medical_text] returns a categorized set, not a failure, and
    its five buckets are empty. *)
Theorem empty_list_gives_empty_set (hf_post : string -> PostOutcome)
  (transcription : string) (response : Response) :
  hf_post transcription = PostReturns response ->
  status_code response = 200 ->
  json response = JsonValue (PyList []) ->
  process_medical_text hf_post transcription =
  ([ "Sending text to Hugging Face Medical NER API...";
     "Medical entities extracted successfully!" ],
   Returns (Entities (mkSet [] [] [] [] []))).
Proof.
  intros Hpost Hstatus Hjson.
  unfold process_medical_text, extract_entities.
  rewrite Hpost, Hstatus, Hjson. reflexivity.
Qed.

Lemma empty_list_gives_empty_set_witness :
  process_medical_text (always (ok_response [])) scenario1_text =
  ([ "Sending text to Hugging Face Medical NER API...";
     "Medical entities extracted successfully!" ],
   Returns (Entities (mkSet [] [] [] [] []))).
Proof.
  apply (empty_list_gives_empty_set (always (ok_response [])) scenario1_text
           (ok_response [])); reflexivity.
Defined.

(** * Further properties *)

(** ** Shape of the reconstruction *)

Lemma absorbs_largest (end_pos : Z) (run : list RawEntity) (end_pos' : Z) :
  absorbs end_pos run end_pos' ->
  end_pos' = fold_left Z.max (map own_end run) end_pos.
Proof. induction 1 as [|e next run e' _ _ IH]; simpl; auto. Qed.

Lemma absorbs_ge (end_pos : Z) (run : list RawEntity) (end_pos' : Z) :
  absorbs end_pos run end_pos' -> end_pos <= end_pos'.
Proof. induction 1 as [|e next run e' _ _ IH]; lia. Qed.

Lemma merge_groups_shape (entities : list RawEntity) (gs : list MergeGroup) :
  merge_groups entities gs ->
  List.concat (map group_fragments gs) = entities /\
  Forall (fun g => group_start g = own_start (group_first g) /\
                   group_end g = largest_end g) gs /\
  (List.length gs <= List.length entities)%nat /\
  (gs = [] <-> entities = []).
Proof.
  induction 1 as [|current run rest end_pos gs Habs Hstop Hgs (Hcat & Hall & Hlen & Hnil)].
  - repeat split; auto.
  - repeat split.
    + cbn [map List.concat]. rewrite Hcat. reflexivity.
    + constructor; [|exact Hall]. split; [reflexivity|].
      unfold largest_end. simpl. now apply absorbs_largest.
    + simpl. rewrite length_app. lia.
    + discriminate.
    + discriminate.
Qed.

(** X1.  [_reconstruct_entities] returns at most as many entities as it
    is given, and it returns the empty list only for the empty list. *)
Theorem reconstruct_entities_length (entities : list RawEntity)
  (original_text : string) :
  exists out,
    _reconstruct_entities entities original_text = Returns out /\
    (List.length out <= List.length entities)%nat /\
    (out = [] <-> entities = []).
Proof.
  destruct (reconstruct_groups original_text entities) as (gs & Hgs & Hout).
  destruct (merge_groups_shape entities gs Hgs) as (_ & _ & Hlen & Hnil).
  exists (reconstruct entities original_text).
  split; [apply _reconstruct_entities_returns|].
  rewrite Hout, length_map. split; [exact Hlen|].
  rewrite <- Hnil. destruct gs; simpl; split; congruence.
Qed.


Lemma merge_scan_stops (end_pos : Z) (rest : list RawEntity) :
  stops_before end_pos rest -> merge_scan end_pos rest = (end_pos, rest).
Proof.
  destruct rest as [|next rest]; simpl; [reflexivity|].
  unfold own_start. intros H.
  destruct (Py.get (start next) 0 <=? end_pos + 2) eqn:Hgap; [|reflexivity].
  apply Z.leb_le in Hgap. lia.
Qed.

Lemma reconstruct_separated_map (entities : list RawEntity) (original_text : string) :
  separated entities ->
  reconstruct entities original_text =
  map (fun e => extract_word e (own_start e) (own_end e) original_text) entities.
Proof.
  induction entities as [|a rest IH]; intros Hsep; [reflexivity|].
  rewrite reconstruct_cons.
  assert (Hstop : stops_before (own_end a) rest).
  { destruct rest as [|b rest]; simpl; [exact I | apply Hsep]. }
  rewrite merge_scan_stops by exact Hstop. simpl. f_equal.
  apply IH. destruct rest as [|b rest]; [exact I | apply Hsep].
Qed.



Lemma extract_word_offsets (current : RawEntity) (start_pos end_pos : Z)
  (original_text : string) :
  own_start (extract_word current start_pos end_pos original_text) = own_start current /\
  own_end (extract_word current start_pos end_pos original_text) = own_end current.
Proof.
  destruct (extract_word_attributes current start_pos end_pos original_text)
    as (_ & _ & _ & Hs & He).
  unfold own_end, own_start. now rewrite Hs, He.
Qed.

Lemma reconstruct_separated (original_text : string) (entities : list RawEntity) :
  separated (reconstruct entities original_text).
Proof.
  remember (List.length entities) as n eqn:Hn.
  revert entities Hn.
  induction n as [n IH] using (well_founded_induction lt_wf).
  intros [|current rest] Hn; [exact I|].
  rewrite reconstruct_cons.
  destruct (merge_scan_spec rest (own_end current)) as (run & Hsplit & Habs & Hstop).
  pose proof (merge_scan_length rest (own_end current)) as Hlen.
  pose proof (absorbs_ge _ _ _ Habs) as Hge.
  destruct (merge_scan (own_end current) rest) as [end_pos rest']. simpl in *.
  assert (Hrec : separated (reconstruct rest' original_text)).
  { apply (IH (List.length rest')); [subst n; simpl; lia | reflexivity]. }
  destruct rest' as [|next rest'']; [exact I|].
  rewrite reconstruct_cons in *. cbn [separated]. split; [|exact Hrec].
  destruct (extract_word_offsets current (own_start current) end_pos original_text)
    as (_ & ->).
  destruct (extract_word_offsets next (own_start next)
              (fst (merge_scan (own_end next) rest'')) original_text) as (-> & _).
  simpl in Hstop. lia.
Qed.

(** X4.  Every returned entity keeps the [start] and the [end] of the
    first fragment of its merge group (the merged window is not written
    back).  The returned entities are separated: each starts more than
    two characters after the end of the one before it.  Hence a second
    pass over the result merges nothing and returns one entity per
    entity. *)
Theorem reconstructed_entities_separated (entities : list RawEntity)
  (original_text : string) :
  exists gs out,
    _reconstruct_entities entities original_text = Returns out /\
    merge_groups entities gs /\
    Forall2
      (fun g o => start o = start (group_first g) /\ end_ o = end_ (group_first g))
      gs out /\
    separated out /\
    _reconstruct_entities out original_text =
    Returns (map (fun e => extract_word e (own_start e) (own_end e) original_text) out).
Proof.
  destruct (reconstruct_groups original_text entities) as (gs & Hgs & Hout).
  exists gs, (reconstruct entities original_text).
  split; [apply _reconstruct_entities_returns|].
  split; [exact Hgs|]. split.
  - rewrite Hout. apply Forall2_map_image. intros g.
    destruct (extract_word_attributes (group_first g) (group_start g) (group_end g)
                original_text) as (_ & _ & _ & Hs & He).
    now split.
  - split; [apply reconstruct_separated|].
    rewrite _reconstruct_entities_returns.
    now rewrite reconstruct_separated_map by apply reconstruct_separated.
Qed.

(** ** Entities without offsets *)

Lemma merge_scan_unlocated (rest : list RawEntity) :
  Forall (fun e => start e = None /\ end_ e = None) rest ->
  merge_scan 0 rest = (0, []).
Proof.
  induction 1 as [|next rest (Hs & He) _ IH]; simpl; [reflexivity|].
  rewrite Hs, He. simpl. exact IH.
Qed.

Lemma slice_empty_window (s : string) : Py.slice s 0 0 = "".
Proof.
  unfold Py.slice, Py.slice_bound, Py.len. simpl.
  rewrite Z.min_l by lia. simpl. now destruct s.
Qed.

(** X5.  When no entity of a non-empty list carries [start] or [end],
    every offset defaults to 0 and the whole list collapses into one
    group with the window [[0, 0)]: one entity is returned, and on a
    non-empty transcript its word is the empty string, so
    [process_medical_text] files nothing at all. *)
Theorem entities_without_offsets_collapse (current : RawEntity)
  (rest : list RawEntity) (transcription : string) :
  Forall (fun e => start e = None /\ end_ e = None) (current :: rest) ->
  _reconstruct_entities (current :: rest) transcription =
  Returns [extract_word current 0 0 transcription] /\
  (transcription <> "" ->
   extract_word current 0 0 transcription = set_word current "" /\
   process_raw (PyList (current :: rest)) transcription =
   Returns (Entities (mkSet [] [] [] [] []))).
Proof.
  intros Hall. inversion Hall as [|? ? (Hs & He) Hrest]; subst.
  assert (Hrec : reconstruct (current :: rest) transcription =
                 [extract_word current 0 0 transcription]).
  { rewrite reconstruct_cons. unfold own_end, own_start. rewrite Hs, He. simpl.
    now rewrite merge_scan_unlocated. }
  split; [now rewrite _reconstruct_entities_returns, Hrec|].
  intros Hne.
  assert (Hword : extract_word current 0 0 transcription = set_word current "").
  { unfold extract_word.
    assert (Hlen : 0 < Py.len transcription).
    { unfold Py.len. destruct transcription; [congruence | simpl; lia]. }
    replace (0 <? Py.len transcription) with true by (symmetry; apply Z.ltb_lt; lia).
    replace (0 <=? Py.len transcription) with true by (symmetry; apply Z.leb_le; lia).
    simpl. now rewrite slice_empty_window. }
  split; [exact Hword|].
  unfold process_raw. rewrite _reconstruct_entities_returns, Hrec, Hword.
  reflexivity.
Qed.

Lemma entities_without_offsets_collapse_witness :
  _reconstruct_entities
    [ mkEntity (Some "fever") (Some "Sign_symptom") None None None (Some (9 # 10));
      mkEntity (Some "cough") (Some "Sign_symptom") None None None (Some (8 # 10)) ]
    "fever and cough" =
  Returns
    [ extract_word
        (mkEntity (Some "fever") (Some "Sign_symptom") None None None (Some (9 # 10)))
        0 0 "fever and cough" ] /\
  ("fever and cough" <> "" ->
   extract_word
     (mkEntity (Some "fever") (Some "Sign_symptom") None None None (Some (9 # 10)))
     0 0 "fever and cough" =
   set_word
     (mkEntity (Some "fever") (Some "Sign_symptom") None None None (Some (9 # 10))) "" /\
   process_raw
     (PyList
        [ mkEntity (Some "fever") (Some "Sign_symptom") None None None (Some (9 # 10));
          mkEntity (Some "cough") (Some "Sign_symptom") None None None (Some (8 # 10)) ])
     "fever and cough" =
   Returns (Entities (mkSet [] [] [] [] []))).
Proof.
  apply (entities_without_offsets_collapse
           (mkEntity (Some "fever") (Some "Sign_symptom") None None None (Some (9 # 10)))
           [mkEntity (Some "cough") (Some "Sign_symptom") None None None (Some (8 # 10))]
           "fever and cough").
  repeat constructor.
Defined.

(** ** Cleaned words *)

Lemma rstrip_by_split (p : ascii -> bool) (s : string) :
  exists after, s = (Py.rstrip_by p s ++ after)%string.
Proof.
  induction s as [|c s (after & IH)]; simpl.
  - now exists EmptyString.
  - destruct (Py.rstrip_by p s) as [|d r] eqn:Hr.
    + destruct (p c).
      * exists (String c s). reflexivity.
      * exists s. reflexivity.
    + exists after. simpl. now rewrite IH at 1.
Qed.

Lemma rstrip_by_last (p : ascii -> bool) (s : string) (c : ascii) :
  last_char (Py.rstrip_by p s) = Some c -> p c = false.
Proof.
  induction s as [|d s IH]; simpl; [discriminate|].
  destruct (Py.rstrip_by p s) as [|d' r] eqn:Hr.
  - destruct (p d) eqn:Hd; simpl; [discriminate|]. now intros [= <-].
  - simpl. exact IH.
Qed.

Lemma rstrip_by_first (p : ascii -> bool) (s : string) (c : ascii) :
  first_char (Py.rstrip_by p s) = Some c -> first_char s = Some c.
Proof.
  destruct s as [|d s]; simpl; [discriminate|].
  destruct (Py.rstrip_by p s); [destruct (p d)|]; simpl; congruence.
Qed.

Lemma lstrip_by_split (p : ascii -> bool) (s : string) :
  exists before, s = (before ++ Py.lstrip_by p s)%string.
Proof.
  induction s as [|c s (before & IH)]; simpl.
  - now exists EmptyString.
  - destruct (p c).
    + exists (String c before). simpl. now rewrite IH at 1.
    + now exists EmptyString.
Qed.

Lemma lstrip_by_first (p : ascii -> bool) (s : string) (c : ascii) :
  first_char (Py.lstrip_by p s) = Some c -> p c = false.
Proof.
  induction s as [|d s IH]; simpl; [discriminate|].
  destruct (p d) eqn:Hd; [exact IH|]. simpl. now intros [= <-].
Qed.

Lemma string_app_assoc (a b c : string) :
  ((a ++ b) ++ c = a ++ b ++ c)%string.
Proof. induction a; simpl; congruence. Qed.

Lemma clean_piece (entity_word : string) :
  occurs_in (clean entity_word) entity_word.
Proof.
  unfold clean, Py.rstrip, Py.strip.
  destruct (lstrip_by_split Py.isspace entity_word) as (before & H1).
  remember (Py.lstrip_by Py.isspace entity_word) as stripped_left eqn:E1.
  destruct (rstrip_by_split Py.isspace stripped_left) as (after1 & H2).
  remember (Py.rstrip_by Py.isspace stripped_left) as stripped eqn:E2.
  destruct (rstrip_by_split (fun c => Py.char_in c trailing_punctuation) stripped)
    as (after2 & H3).
  exists before, (after2 ++ after1)%string.
  rewrite H1, H2, H3 at 1. now rewrite string_app_assoc.
Qed.

Lemma clean_ends (entity_word : string) :
  (forall c, last_char (clean entity_word) = Some c ->
             Py.char_in c ".,;:!?" = false) /\
  (forall c, first_char (clean entity_word) = Some c -> Py.isspace c = false).
Proof.
  unfold clean, Py.rstrip, Py.strip, trailing_punctuation. split.
  - intros c H. now apply rstrip_by_last in H.
  - intros c H. apply rstrip_by_first in H. apply rstrip_by_first in H.
    now apply lstrip_by_first in H.
Qed.

(** X6.  The cleaned word is a piece of the word it comes from (some
    characters before and after it are dropped, none is changed); it
    never ends with one of [.,;:!?] and never starts with
    whitespace. *)
Theorem clean_shape (entity_word : string) :
  occurs_in (clean entity_word) entity_word /\
  (forall c, last_char (clean entity_word) = Some c ->
             Py.char_in c ".,;:!?" = false) /\
  (forall c, first_char (clean entity_word) = Some c -> Py.isspace c = false).
Proof.
  split; [apply clean_piece | apply clean_ends].
Qed.

(** ** Each bucket on its own *)

Lemma step_bucket (m : CategorizedEntitySet) (e : RawEntity) (b : Bucket) :
  bucket (categorize_step m e) b =
  if mapped_to b e then add_term (bucket m b) (cleaned_word e) else bucket m b.
Proof.
  rewrite categorize_step_cases. unfold mapped_to, add_term, cleaned_word.
  destruct (accepted e); simpl; [|reflexivity].
  destruct (map_category (label_of e)) as [c|].
  - destruct (Bucket_eqb c b) eqn:Hcb.
    + apply Bucket_eqb_eq in Hcb. subst c.
      destruct (Py.mem _ (bucket m b)); [reflexivity|].
      rewrite bucket_bucket_append.
      now replace (Bucket_eqb b b) with true by (symmetry; now apply Bucket_eqb_eq).
    + destruct (Py.mem _ (bucket m c)); [reflexivity|].
      now rewrite bucket_bucket_append, Hcb.
  - apply bucket_other_append.
Qed.

Lemma step_other (m : CategorizedEntitySet) (e : RawEntity) :
  set_other (categorize_step m e) =
  if routed_to_other e then set_other m ++ [other_record e] else set_other m.
Proof.
  rewrite categorize_step_cases. unfold routed_to_other.
  destruct (accepted e); simpl; [|reflexivity].
  destruct (map_category (label_of e)) as [c|]; [|reflexivity].
  destruct (Py.mem _ (bucket m c)); [reflexivity | apply other_bucket_append].
Qed.

Lemma loop_bucket (l : list RawEntity) (b : Bucket) :
  forall m,
    bucket (fold_left categorize_step l m) b =
    fold_left add_term (map cleaned_word (filter (mapped_to b) l)) (bucket m b).
Proof.
  induction l as [|e l IH]; intros m; simpl; [reflexivity|].
  rewrite IH, step_bucket. now destruct (mapped_to b e).
Qed.

Lemma loop_other (l : list RawEntity) :
  forall m,
    set_other (fold_left categorize_step l m) =
    set_other m ++ map other_record (filter routed_to_other l).
Proof.
  induction l as [|e l IH]; intros m; simpl; [now rewrite app_nil_r|].
  rewrite IH, step_other.
  destruct (routed_to_other e); simpl; [now rewrite <- app_assoc | reflexivity].
Qed.

Lemma add_terms_In (ts : list string) :
  forall seen t, In t (fold_left add_term ts seen) <-> In t seen \/ In t ts.
Proof.
  induction ts as [|x ts IH]; intros seen t; simpl; [tauto|].
  rewrite IH. unfold add_term.
  destruct (Py.mem x seen) eqn:Hmem.
  - apply mem_In in Hmem. split; [tauto|]. intros [H|[<-|H]]; auto.
  - rewrite in_app_iff. simpl. tauto.
Qed.

Lemma add_terms_prefix (ts : list string) :
  forall seen, exists more, fold_left add_term ts seen = seen ++ more.
Proof.
  induction ts as [|x ts IH]; intros seen; simpl.
  - exists []. now rewrite app_nil_r.
  - destruct (IH (add_term seen x)) as (more & ->). unfold add_term.
    destruct (Py.mem x seen).
    + now exists more.
    + exists (x :: more). now rewrite <- app_assoc.
Qed.

Lemma add_terms_seen (ts : list string) :
  forall seen, (forall t, In t ts -> In t seen) ->
               fold_left add_term ts seen = seen.
Proof.
  induction ts as [|x ts IH]; intros seen H; simpl; [reflexivity|].
  assert (Hx : Py.mem x seen = true) by (apply mem_In, H; now left).
  unfold add_term at 2. rewrite Hx. apply IH. intros t Ht. apply H. now right.
Qed.

Lemma first_occurrences_In (ts : list string) (t : string) :
  In t (first_occurrences ts) <-> In t ts.
Proof.
  unfold first_occurrences. now rewrite <- in_rev, nodup_In, <- in_rev.
Qed.

Lemma add_terms_first_occurrences (ts : list string) :
  fold_left add_term ts [] = first_occurrences ts.
Proof.
  induction ts as [|t ts IH] using rev_ind; [reflexivity|].
  rewrite fold_left_app. simpl. rewrite IH.
  unfold first_occurrences at 2. rewrite rev_unit. simpl.
  unfold add_term.
  destruct (in_dec string_dec t (rev ts)) as [Hin|Hnot].
  - replace (Py.mem t (first_occurrences ts)) with true; [reflexivity|].
    symmetry. apply mem_In, first_occurrences_In. now apply in_rev.
  - replace (Py.mem t (first_occurrences ts)) with false; [reflexivity|].
    symmetry. apply not_true_is_false. intros H.
    apply mem_In in H. rewrite first_occurrences_In in H.
    apply Hnot. now rewrite <- in_rev.
Qed.

Lemma accepted_long (e : RawEntity) :
  accepted e = true ->
  2 <= Py.len (cleaned_word e) /\ label_of e <> "" /\ Py.get (word e) "" <> "".
Proof.
  unfold accepted, cleaned_word. intros H.
  apply andb_true_iff in H as (H & Hlen). apply andb_true_iff in H as (Hw & Hl).
  apply negb_true_iff, Z.ltb_ge in Hlen.
  split; [exact Hlen|]. split.
  - now destruct (label_of e).
  - now destruct (Py.get (word e) "").
Qed.

(** X7.  Whatever the entities, a term stored in a named bucket has at
    least two characters, does not end with one of [.,;:!?] and does not
    start with whitespace; a record stored in [other] has such a word, a
    non-empty type in which no key of the map occurs, and the score of
    its entity or 0. *)
Theorem stored_terms_shape (entities : list RawEntity) :
  (forall b t, In t (bucket (categorize entities) b) ->
     2 <= Py.len t /\
     (forall c, last_char t = Some c -> Py.char_in c ".,;:!?" = false) /\
     (forall c, first_char t = Some c -> Py.isspace c = false)) /\
  (forall r, In r (set_other (categorize entities)) ->
     2 <= Py.len (other_word r) /\
     (forall c, last_char (other_word r) = Some c -> Py.char_in c ".,;:!?" = false) /\
     (forall c, first_char (other_word r) = Some c -> Py.isspace c = false) /\
     other_type r <> "" /\
     (forall k v, In (k, v) entity_category_map -> ~ occurs_in k (other_type r)) /\
     exists e, In e entities /\ other_confidence r = Py.get (score e) 0%Q).
Proof.
  split.
  - intros b t Hin. unfold categorize in Hin. rewrite loop_bucket in Hin.
    rewrite add_terms_In in Hin. destruct Hin as [Hin|Hin]; [now destruct b|].
    apply in_map_iff in Hin as (e & <- & He).
    apply filter_In in He as (_ & He). unfold mapped_to in He.
    apply andb_true_iff in He as (Hacc & _).
    destruct (accepted_long e Hacc) as (Hlen & _).
    destruct (clean_ends (Py.get (word e) "")) as (Hlast & Hfirst).
    repeat split; auto.
  - intros r Hin. unfold categorize in Hin. rewrite loop_other in Hin.
    simpl in Hin. apply in_map_iff in Hin as (e & <- & He).
    apply filter_In in He as (Hel & He). unfold routed_to_other in He.
    apply andb_true_iff in He as (Hacc & Hnone).
    destruct (accepted_long e Hacc) as (Hlen & Hlabel & _).
    destruct (clean_ends (Py.get (word e) "")) as (Hlast & Hfirst).
    cbn [other_record other_word other_type other_confidence].
    split; [exact Hlen|]. split; [exact Hlast|]. split; [exact Hfirst|].
    split; [exact Hlabel|]. split.
    + apply first_match_None. unfold map_category in Hnone.
      now destruct (first_match entity_category_map (label_of e)).
    + now exists e.
Qed.

(** X8.  Each named bucket is the list of the cleaned words of the
    accepted entities the mapper sends to it, every word kept once, at
    the place of its first occurrence. *)
Theorem bucket_is_first_occurrences (entities : list RawEntity) (b : Bucket) :
  bucket (categorize entities) b =
  first_occurrences (map cleaned_word (filter (mapped_to b) entities)).
Proof.
  unfold categorize. rewrite loop_bucket.
  replace (bucket empty_set b) with (@nil string) by now destruct b.
  apply add_terms_first_occurrences.
Qed.

Lemma filter_Permutation {A : Type} (f : A -> bool) (l l' : list A) :
  Permutation l l' -> Permutation (filter f l) (filter f l').
Proof.
  induction 1 as [|x l l' _ IH|x y l|l l' l'' _ IH1 _ IH2]; simpl.
  - constructor.
  - destruct (f x); [now constructor | exact IH].
  - destruct (f x), (f y); try reflexivity. constructor.
  - now transitivity (filter f l').
Qed.

Lemma bucket_members (entities : list RawEntity) (b : Bucket) (t : string) :
  In t (bucket (categorize entities) b) <->
  exists e, In e entities /\ mapped_to b e = true /\ cleaned_word e = t.
Proof.
  unfold categorize. rewrite loop_bucket, add_terms_In, in_map_iff.
  split.
  - intros [H|(e & Ht & He)]; [now destruct b|].
    apply filter_In in He as (Hin & Hb). now exists e.
  - intros (e & Hin & Hb & Ht). right. exists e. split; [exact Ht|].
    now apply filter_In.
Qed.

(** X9.  The order of the entities decides only the order inside the
    buckets: for two lists that are permutations of each other, every
    named bucket holds the same terms and [other] holds the same
    records, up to order. *)
Theorem categorize_permutation (entities entities' : list RawEntity) :
  Permutation entities entities' ->
  (forall b t, In t (bucket (categorize entities) b) <->
               In t (bucket (categorize entities') b)) /\
  Permutation (set_other (categorize entities)) (set_other (categorize entities')).
Proof.
  intros Hperm. split.
  - intros b t. rewrite !bucket_members.
    split; intros (e & Hin & H); exists e; (split; [|exact H]).
    + now apply (Permutation_in e Hperm).
    + now apply (Permutation_in e (Permutation_sym Hperm)).
  - unfold categorize. rewrite !loop_other. simpl.
    apply Permutation_map. now apply filter_Permutation.
Qed.

Lemma categorize_permutation_witness :
  (forall b t,
     In t (bucket (categorize aspirin_entities) b) <->
     In t (bucket (categorize (rev aspirin_entities)) b)) /\
  Permutation (set_other (categorize aspirin_entities))
    (set_other (categorize (rev aspirin_entities))).
Proof.
  apply (categorize_permutation aspirin_entities (rev aspirin_entities)).
  unfold aspirin_entities. simpl. apply perm_swap.
Defined.

(** X10.  Categorizing more entities only appends: the buckets of a
    list are prefixes of the buckets of any longer list that starts
    with it, and [other] grows by one record per entity of the
    continuation that is accepted and unmapped. *)
Theorem categorize_extends (entities more : list RawEntity) :
  (forall b, exists added,
     bucket (categorize (entities ++ more)) b =
     bucket (categorize entities) b ++ added) /\
  set_other (categorize (entities ++ more)) =
  set_other (categorize entities) ++ map other_record (filter routed_to_other more).
Proof.
  unfold categorize. rewrite fold_left_app. split.
  - intros b. rewrite loop_bucket. apply add_terms_prefix.
  - apply loop_other.
Qed.

(** X11.  Categorizing a list twice in a row changes no named bucket
    (every term is already there), while [other] receives every record
    a second time. *)
Theorem categorize_twice (entities : list RawEntity) :
  (forall b, bucket (categorize (entities ++ entities)) b =
             bucket (categorize entities) b) /\
  set_other (categorize (entities ++ entities)) =
  set_other (categorize entities) ++ set_other (categorize entities).
Proof.
  split.
  - intros b. unfold categorize at 1. rewrite fold_left_app, loop_bucket.
    fold (categorize entities). apply add_terms_seen.
    intros t Ht. apply in_map_iff in Ht as (e & Ht & He).
    apply filter_In in He as (Hin & Hb).
    apply bucket_members. now exists e.
  - unfold categorize at 1. rewrite fold_left_app, loop_other.
    fold (categorize entities). f_equal.
    unfold categorize. now rewrite loop_other.
Qed.

(** ** More on the category mapper *)

Lemma contains_other_initial (c k : ascii) (key label : string) :
  k <> c ->
  Py.contains (String c label) (String k key) = Py.contains label (String k key).
Proof.
  intros Hne. cbn [Py.contains]. simpl prefix.
  destruct (ascii_dec k c) as [Heq|_]; [contradiction | reflexivity].
Qed.

Lemma first_match_other_initial (c : ascii) (label : string)
  (items : list (string * Bucket)) :
  Forall (fun item => exists k key, fst item = String k key /\ k <> c) items ->
  first_match items (String c label) = first_match items label.
Proof.
  induction 1 as [|[key value] items (k & key' & Hkey & Hne) _ IH]; [reflexivity|].
  simpl in Hkey. subst key. cbn [first_match].
  rewrite contains_other_initial by exact Hne. now rewrite IH.
Qed.

(** X12.  A character that is not the initial of a key ([D], [S], [P] or
    [M]) in front of a label does not change its category; in
    particular the [B-] and [I-] marks of a tagging scheme are
    ignored. *)
Theorem map_category_ignores_mark (c : ascii) (label : string) :
  c <> "D"%char -> c <> "S"%char -> c <> "P"%char -> c <> "M"%char ->
  map_category (String c label) = map_category label /\
  map_category ("B-" ++ label)%string = map_category label /\
  map_category ("I-" ++ label)%string = map_category label.
Proof.
  assert (Hany : forall d l,
    d <> "D"%char -> d <> "S"%char -> d <> "P"%char -> d <> "M"%char ->
    map_category (String d l) = map_category l).
  { intros d l HD HS HP HM. unfold map_category, entity_category_map.
    apply first_match_other_initial.
    repeat constructor; simpl; eexists _, _; (split; [reflexivity|]); congruence. }
  intros HD HS HP HM. split; [now apply Hany|].
  split; simpl; (rewrite Hany by discriminate); now apply Hany.
Qed.

Lemma map_category_ignores_mark_witness :
  map_category (String "-" "DISEASE") = map_category "DISEASE" /\
  map_category ("B-" ++ "DISEASE")%string = map_category "DISEASE" /\
  map_category ("I-" ++ "DISEASE")%string = map_category "DISEASE".
Proof.
  apply (map_category_ignores_mark "-"%char "DISEASE"); discriminate.
Defined.

Lemma occurs_in_longer (key label before after : string) :
  occurs_in key label -> occurs_in key (before ++ label ++ after)%string.
Proof.
  intros (b1 & a1 & ->). exists (before ++ b1)%string, (a1 ++ after)%string.
  now rewrite !string_app_assoc.
Qed.

(** X13.  A label that maps to a bucket still maps to a bucket when
    text is put before and after it: the key found in the label is
    found in the longer label too (an earlier key of the map may win
    there). *)
Theorem map_category_longer_label (label before after : string) (b : Bucket) :
  map_category label = Some b ->
  exists b', map_category (before ++ label ++ after)%string = Some b'.
Proof.
  intros H. apply first_match_Some in H as (items & key & items' & Hmap & Hocc & _).
  destruct (map_category (before ++ label ++ after)%string) as [b'|] eqn:Hbig;
    [now exists b'|].
  exfalso. unfold map_category in Hbig.
  rewrite first_match_None in Hbig.
  apply (Hbig key b).
  - rewrite Hmap. apply in_or_app. right. now left.
  - now apply occurs_in_longer.
Qed.

Lemma map_category_longer_label_witness :
  exists b', map_category ("B-" ++ "DRUG" ++ "_DISEASE")%string = Some b'.
Proof.
  apply (map_category_longer_label "DRUG" "B-" "_DISEASE" medications).
  reflexivity.
Defined.

(** ** The error envelope *)

(** X15.  An error envelope (a 200 answer whose JSON is an object with
    an ["error"] entry) is reported with its own message, which differs
    from the message for an unreachable gateway and from the message
    for an unexpected format; the log nevertheless says that the
    entities were extracted. *)
Theorem error_envelope_reported (hf_post : string -> PostOutcome)
  (transcription : string) (response : Response)
  (items : list (string * string)) (e : string) :
  hf_post transcription = PostReturns response ->
  status_code response = 200 ->
  json response = JsonValue (PyDict items) ->
  dict_get items "error" = Some e ->
  process_medical_text hf_post transcription =
  ([ "Sending text to Hugging Face Medical NER API...";
     "Medical entities extracted successfully!" ],
   Returns (Error ("API Error: " ++ e)%string)) /\
  ("API Error: " ++ e)%string <> "Failed to extract entities - API error" /\
  ("API Error: " ++ e)%string <> "Unexpected API response format".
Proof.
  intros Hpost Hstatus Hjson Herr.
  unfold process_medical_text, extract_entities.
  rewrite Hpost, Hstatus, Hjson. simpl. rewrite Herr.
  repeat split; discriminate.
Qed.

Lemma error_envelope_reported_witness :
  process_medical_text
    (always (mkResponse 200 "{...}" (JsonValue (PyDict [("error", "rate limited")]))))
    scenario1_text =
  ([ "Sending text to Hugging Face Medical NER API...";
     "Medical entities extracted successfully!" ],
   Returns (Error ("API Error: " ++ "rate limited")%string)) /\
  ("API Error: " ++ "rate limited")%string <> "Failed to extract entities - API error" /\
  ("API Error: " ++ "rate limited")%string <> "Unexpected API response format".
Proof.
  apply (error_envelope_reported
           (always (mkResponse 200 "{...}"
                      (JsonValue (PyDict [("error", "rate limited")]))))
           scenario1_text
           (mkResponse 200 "{...}" (JsonValue (PyDict [("error", "rate limited")])))
           [("error", "rate limited")] "rate limited"); reflexivity.
Defined.

(** ** The service layer: [process_audio] *)

Lemma fs_read_write (fs : FileSystem) (path bytes : string) :
  fs_read (fs_write fs path bytes) path = Some bytes.
Proof. unfold fs_write. simpl. now rewrite String.eqb_refl. Qed.

Lemma fs_read_unlink (fs : FileSystem) (path : string) :
  fs_read (fs_unlink fs path) path = None.
Proof.
  induction fs as [|[p bytes] fs IH]; simpl; [reflexivity|].
  destruct (String.eqb p path) eqn:Hp; simpl; [exact IH|].
  now rewrite Hp.
Qed.

Lemma fs_read_unlink_other (fs : FileSystem) (path other : string) :
  other <> path -> fs_read (fs_unlink fs path) other = fs_read fs other.
Proof.
  intros Hne. induction fs as [|[p bytes] fs IH]; simpl; [reflexivity|].
  destruct (String.eqb p path) eqn:Hp; simpl.
  - apply String.eqb_eq in Hp. subst p.
    destruct (String.eqb path other) eqn:Ho; [|exact IH].
    apply String.eqb_eq in Ho. congruence.
  - now rewrite IH.
Qed.

Lemma fs_unlink_absent (fs : FileSystem) (path : string) :
  fs_read fs path = None -> fs_unlink fs path = fs.
Proof.
  induction fs as [|[p bytes] fs IH]; simpl; [reflexivity|].
  destruct (String.eqb p path); [discriminate|].
  intros H. simpl. now rewrite IH.
Qed.

Lemma fs_unlink_write (fs : FileSystem) (path bytes : string) :
  fs_unlink (fs_write fs path bytes) path = fs_unlink fs path.
Proof.
  unfold fs_write. simpl. rewrite String.eqb_refl. simpl.
  unfold fs_unlink. induction fs as [|[p b] fs IH]; simpl; [reflexivity|].
  destruct (String.eqb p path) eqn:Hp; simpl; [exact IH|].
  rewrite Hp. simpl. now rewrite IH.
Qed.

(** What [process_audio] leaves after an accepted upload. *)
Lemma cleanup_after_save (fs : FileSystem) (path bytes : string) :
  (if fs_exists (fs_write fs path bytes) path
   then fs_unlink (fs_write fs path bytes) path
   else fs_write fs path bytes) = fs_unlink fs path.
Proof.
  unfold fs_exists. rewrite fs_read_write. apply fs_unlink_write.
Qed.

(** The transcription of the saved upload reads the uploaded bytes. *)
Lemma transcribe_saved (sarvam_post : string -> string -> PostOutcome)
  (fs : FileSystem) (path bytes : string) :
  transcribe_audio_with_sarvam sarvam_post (fs_write fs path bytes) path =
  transcribe_audio_with_sarvam sarvam_post [(path, bytes)] path.
Proof.
  unfold transcribe_audio_with_sarvam. rewrite fs_read_write.
  simpl. now rewrite String.eqb_refl.
Qed.

Lemma process_audio_accepted
  (sarvam_post : string -> string -> PostOutcome) (hf_post : string -> PostOutcome)
  (request_files : list (string * FileStorage)) (temp_filename : string)
  (fs : FileSystem) (file : FileStorage) :
  files_get request_files "file" = Some file ->
  filename file <> "" ->
  process_audio sarvam_post hf_post request_files temp_filename fs =
  (match transcribe_audio_with_sarvam sarvam_post
           [(temp_filename, upload file)] temp_filename with
   | SarvamFailed error details =>
       (BodyError "Failed to transcribe audio" (Some error) (Some details), 500)
   | SarvamOk text_out language_code =>
       match extract_medical_entities hf_post text_out with
       | AppFailure error details =>
           (BodyError "Failed to extract medical entities"
              (Some error) (Some details), 500)
       | AppSuccess entities_data =>
           (BodySuccess text_out language_code entities_data
              (basename temp_filename), 200)
       end
   end,
   fs_unlink fs temp_filename).
Proof.
  intros Hfile Hname. unfold process_audio. rewrite Hfile.
  apply String.eqb_neq in Hname. rewrite Hname.
  now rewrite cleanup_after_save, transcribe_saved.
Qed.

(** X18.  [process_audio] leaves the file system as it found it: the
    temporary file it writes is removed on every path, whether the
    transcription and the extraction succeed or fail.  (The name picked
    for the temporary file is not in use before.) *)
Theorem process_audio_restores_files
  (sarvam_post : string -> string -> PostOutcome) (hf_post : string -> PostOutcome)
  (request_files : list (string * FileStorage)) (temp_filename : string)
  (fs : FileSystem) :
  fs_read fs temp_filename = None ->
  snd (process_audio sarvam_post hf_post request_files temp_filename fs) = fs.
Proof.
  intros Hfresh.
  destruct (files_get request_files "file") as [file|] eqn:Hfile.
  - destruct (String.eqb (filename file) "") eqn:Hname.
    + unfold process_audio. now rewrite Hfile, Hname.
    + apply String.eqb_neq in Hname.
      rewrite (process_audio_accepted _ _ _ _ _ file Hfile Hname). simpl.
      now apply fs_unlink_absent.
  - unfold process_audio. now rewrite Hfile.
Qed.

Lemma process_audio_restores_files_witness :
  snd (process_audio
         (fun _ _ => PostReturns response_503) (always response_503)
         [("file", mkUpload "visit.wav" "RIFF")] "/tmp/tmpab12.wav"
         [("/etc/hostname", "render")]) =
  [("/etc/hostname", "render")].
Proof.
  apply (process_audio_restores_files
           (fun _ _ => PostReturns response_503) (always response_503)
           [("file", mkUpload "visit.wav" "RIFF")] "/tmp/tmpab12.wav"
           [("/etc/hostname", "render")]).
  reflexivity.
Defined.

(** X19.  The answer of [process_audio] does not depend on what the
    file system holds, nor on what the speech service would answer to
    anything but the uploaded content sent under the base name of the
    temporary file: the uploaded content is what is transcribed.  When
    the service answers that request with 200 and a JSON object, the
    answer is built from [extract_medical_entities] on the transcript of
    that object (the empty string when it has none). *)
Theorem process_audio_ignores_files
  (sarvam_post : string -> string -> PostOutcome) (hf_post : string -> PostOutcome)
  (request_files : list (string * FileStorage)) (temp_filename : string)
  (fs fs' : FileSystem) :
  fst (process_audio sarvam_post hf_post request_files temp_filename fs) =
  fst (process_audio sarvam_post hf_post request_files temp_filename fs') /\
  (forall file sarvam_post',
     files_get request_files "file" = Some file ->
     sarvam_post' (basename temp_filename) (upload file) =
     sarvam_post (basename temp_filename) (upload file) ->
     fst (process_audio sarvam_post' hf_post request_files temp_filename fs) =
     fst (process_audio sarvam_post hf_post request_files temp_filename fs)) /\
  (forall file response result,
     files_get request_files "file" = Some file ->
     filename file <> "" ->
     sarvam_post (basename temp_filename) (upload file) = PostReturns response ->
     status_code response = 200 ->
     json response = JsonValue (PyDict result) ->
     fst (process_audio sarvam_post hf_post request_files temp_filename fs) =
     match extract_medical_entities hf_post
             (Py.get (dict_get result "transcript") "") with
     | AppSuccess entities_data =>
         (BodySuccess (Py.get (dict_get result "transcript") "")
            (Py.get (dict_get result "language_code") "unknown")
            entities_data (basename temp_filename), 200)
     | AppFailure error details =>
         (BodyError "Failed to extract medical entities"
            (Some error) (Some details), 500)
     end).
Proof.
  split; [|split].
  - destruct (files_get request_files "file") as [file|] eqn:Hfile.
    + destruct (String.eqb (filename file) "") eqn:Hname.
      * unfold process_audio. now rewrite Hfile, Hname.
      * apply String.eqb_neq in Hname.
        now rewrite !(process_audio_accepted _ _ _ _ _ file Hfile Hname).
    + unfold process_audio. now rewrite Hfile.
  - intros file sarvam_post' Hfile Hsame.
    destruct (String.eqb (filename file) "") eqn:Hname.
    + unfold process_audio. now rewrite Hfile, Hname.
    + apply String.eqb_neq in Hname.
      rewrite !(process_audio_accepted _ _ _ _ _ file Hfile Hname). simpl.
      unfold transcribe_audio_with_sarvam. simpl.
      now rewrite String.eqb_refl, Hsame.
  - intros file response result Hfile Hname Hpost Hstatus Hjson.
    rewrite (process_audio_accepted _ _ _ _ _ file Hfile Hname). simpl.
    unfold transcribe_audio_with_sarvam. simpl.
    rewrite String.eqb_refl, Hpost, Hstatus, Hjson. simpl.
    now destruct (extract_medical_entities hf_post _).
Qed.

(** X20.  [process_audio] answers with the HTTP status 200, 400 or 500:
    400 exactly when the request has no ["file"] part or the file has an
    empty name, and 200 exactly when the ["status"] entry of the
    document is ["success"]. *)
Theorem process_audio_status
  (sarvam_post : string -> string -> PostOutcome) (hf_post : string -> PostOutcome)
  (request_files : list (string * FileStorage)) (temp_filename : string)
  (fs : FileSystem) :
  let answer := fst (process_audio sarvam_post hf_post request_files temp_filename fs) in
  (snd answer = 200 \/ snd answer = 400 \/ snd answer = 500) /\
  (snd answer = 400 <->
   files_get request_files "file" = None \/
   exists file, files_get request_files "file" = Some file /\ filename file = "") /\
  (snd answer = 200 <-> body_status (fst answer) = "success").
Proof.
  destruct (files_get request_files "file") as [file|] eqn:Hfile.
  - destruct (String.eqb (filename file) "") eqn:Hname.
    + unfold process_audio. rewrite Hfile, Hname. simpl.
      apply String.eqb_eq in Hname.
      split; [auto|]. split; [|split; discriminate].
      split; [|reflexivity]. intros _. right. now exists file.
    + apply String.eqb_neq in Hname.
      rewrite (process_audio_accepted _ _ _ _ _ file Hfile Hname). simpl.
      assert (Hnot : ~ (Some file = None \/
                        exists f, Some file = Some f /\ filename f = "")).
      { intros [H|(f & [= <-] & H)]; [discriminate | contradiction]. }
      destruct (transcribe_audio_with_sarvam _ _ _) as [t lang|error details]; simpl.
      * destruct (extract_medical_entities hf_post t); simpl;
          (split; [auto|]); (split; [split; [discriminate | contradiction]|]);
          split; (discriminate || reflexivity).
      * split; [auto|]. split; [split; [discriminate | contradiction]|].
        split; discriminate.
  - unfold process_audio. rewrite Hfile. simpl.
    split; [auto|]. split; [|split; discriminate].
    split; [|reflexivity]. intros _. now left.
Qed.

Lemma transcribe_ok_iff (sarvam_post : string -> string -> PostOutcome)
  (fs : FileSystem) (audio_file_path text_out language_code : string) :
  transcribe_audio_with_sarvam sarvam_post fs audio_file_path =
  SarvamOk text_out language_code <->
  exists audio_file response result,
    fs_read fs audio_file_path = Some audio_file /\
    sarvam_post (basename audio_file_path) audio_file = PostReturns response /\
    status_code response = 200 /\
    json response = JsonValue (PyDict result) /\
    text_out = Py.get (dict_get result "transcript") "" /\
    language_code = Py.get (dict_get result "language_code") "unknown".
Proof.
  unfold transcribe_audio_with_sarvam.
  destruct (fs_read fs audio_file_path) as [audio|] eqn:Hread.
  2:{ split; [discriminate|]. intros (a & r & d & H & _). discriminate. }
  destruct (sarvam_post (basename audio_file_path) audio) as [e|response] eqn:Hpost.
  { split; [discriminate|].
    intros (a & r & d & [= <-] & H & _). congruence. }
  destruct (status_code response =? 200) eqn:Hstatus.
  2:{ split; [discriminate|].
      intros (a & r & d & [= <-] & H & H200 & _).
      rewrite Hpost in H. injection H as <-.
      apply Z.eqb_neq in Hstatus. contradiction. }
  apply Z.eqb_eq in Hstatus.
  destruct (json response) as [e|[|raw|result]] eqn:Hjson.
  - split; [discriminate|].
    intros (a & r & d & [= <-] & H & _ & Hj & _).
    rewrite Hpost in H. injection H as <-. congruence.
  - split; [discriminate|].
    intros (a & r & d & [= <-] & H & _ & Hj & _).
    rewrite Hpost in H. injection H as <-. congruence.
  - split; [discriminate|].
    intros (a & r & d & [= <-] & H & _ & Hj & _).
    rewrite Hpost in H. injection H as <-. congruence.
  - split.
    + intros [= <- <-]. exists audio, response, result. repeat split; auto.
    + intros (a & r & d & [= <-] & H & _ & Hj & -> & ->).
      rewrite Hpost in H. injection H as <-.
      rewrite Hjson in Hj. now injection Hj as <-.
Qed.

(** X21.  [process_audio] answers with a success document exactly when
    the request carries a named file, the speech service, given the
    uploaded content under the base name of the temporary file, answers
    200 with a JSON object, and [extract_medical_entities] succeeds on
    its transcript (the empty string when the object has no
    ["transcript"] entry); the document then carries that transcript,
    the language code (["unknown"] by default), the categorized set and
    the base name of the temporary file. *)
Theorem process_audio_success
  (sarvam_post : string -> string -> PostOutcome) (hf_post : string -> PostOutcome)
  (request_files : list (string * FileStorage)) (temp_filename : string)
  (fs : FileSystem) (text_out language_code audio_name : string)
  (data : CategorizedEntitySet) :
  fst (process_audio sarvam_post hf_post request_files temp_filename fs) =
  (BodySuccess text_out language_code data audio_name, 200) <->
  exists file response result,
    files_get request_files "file" = Some file /\
    filename file <> "" /\
    sarvam_post (basename temp_filename) (upload file) = PostReturns response /\
    status_code response = 200 /\
    json response = JsonValue (PyDict result) /\
    text_out = Py.get (dict_get result "transcript") "" /\
    language_code = Py.get (dict_get result "language_code") "unknown" /\
    extract_medical_entities hf_post text_out = AppSuccess data /\
    audio_name = basename temp_filename.
Proof.
  destruct (files_get request_files "file") as [file|] eqn:Hfile.
  2:{ unfold process_audio. rewrite Hfile. simpl.
      split; [discriminate|]. intros (f & r & d & H & _). discriminate. }
  destruct (String.eqb (filename file) "") eqn:Hname.
  { unfold process_audio. rewrite Hfile, Hname. simpl.
    apply String.eqb_eq in Hname.
    split; [discriminate|]. intros (f & r & d & [= <-] & H & _). contradiction. }
  apply String.eqb_neq in Hname.
  rewrite (process_audio_accepted _ _ _ _ _ file Hfile Hname). simpl.
  destruct (transcribe_audio_with_sarvam sarvam_post
              [(temp_filename, upload file)] temp_filename)
    as [t lang|error details] eqn:Htr.
  - apply transcribe_ok_iff in Htr
      as (audio & response & result & Hread & Hpost & Hstatus & Hjson & -> & ->).
    simpl in Hread. rewrite String.eqb_refl in Hread. injection Hread as <-.
    destruct (extract_medical_entities hf_post
                (Py.get (dict_get result "transcript") "")) as [d|error details] eqn:Happ.
    + split.
      * intros [= <- <- <- <-]. exists file, response, result. repeat split; auto.
      * intros (f & r & res & [= <-] & _ & Hp & _ & Hj & -> & -> & Hd & ->).
        rewrite Hpost in Hp. injection Hp as <-.
        rewrite Hjson in Hj. injection Hj as <-.
        rewrite Happ in Hd. now injection Hd as <-.
    + split; [discriminate|].
      intros (f & r & res & [= <-] & _ & Hp & _ & Hj & -> & -> & Hd & ->).
      rewrite Hpost in Hp. injection Hp as <-.
      rewrite Hjson in Hj. injection Hj as <-.
      rewrite Happ in Hd. discriminate.
  - split; [discriminate|].
    intros (f & r & res & [= <-] & _ & Hp & Hs & Hj & Ht & Hl & _).
    assert (Hok : transcribe_audio_with_sarvam sarvam_post
                    [(temp_filename, upload file)] temp_filename =
                  SarvamOk text_out language_code).
    { apply transcribe_ok_iff. exists (upload file), r, res.
      repeat split; auto. simpl. now rewrite String.eqb_refl. }
    congruence.
Qed.

(** X22.  When the speech service answers with a status other than 200,
    [process_audio] answers 500 with the status code in [error_details]
    and the raw body in [technical_details], whatever the extraction
    gateway would do: it is not consulted. *)
Theorem transcription_failure_reported
  (sarvam_post : string -> string -> PostOutcome) (hf_post : string -> PostOutcome)
  (request_files : list (string * FileStorage)) (temp_filename : string)
  (fs : FileSystem) (file : FileStorage) (response : Response) :
  files_get request_files "file" = Some file ->
  filename file <> "" ->
  sarvam_post (basename temp_filename) (upload file) = PostReturns response ->
  status_code response <> 200 ->
  fst (process_audio sarvam_post hf_post request_files temp_filename fs) =
  (BodyError "Failed to transcribe audio"
     (Some ("Sarvam API error: " ++ Py.str_int (status_code response))%string)
     (Some (text response)), 500).
Proof.
  intros Hfile Hname Hpost Hstatus.
  rewrite (process_audio_accepted _ _ _ _ _ file Hfile Hname). simpl.
  unfold transcribe_audio_with_sarvam. simpl. rewrite String.eqb_refl, Hpost.
  apply Z.eqb_neq in Hstatus. now rewrite Hstatus.
Qed.

Lemma transcription_failure_reported_witness :
  fst (process_audio
         (fun _ _ => PostReturns response_503) (always (ok_response aligned_entities))
         [("file", mkUpload "visit.wav" "RIFF")] "/tmp/tmpab12.wav" []) =
  (BodyError "Failed to transcribe audio"
     (Some "Sarvam API error: 503") (Some "Service Unavailable"), 500).
Proof.
  apply (transcription_failure_reported
           (fun _ _ => PostReturns response_503) (always (ok_response aligned_entities))
           [("file", mkUpload "visit.wav" "RIFF")] "/tmp/tmpab12.wav" []
           (mkUpload "visit.wav" "RIFF") response_503).
  - reflexivity.
  - discriminate.
  - reflexivity.
  - vm_compute. discriminate.
Defined.

Lemma char_in_app (c : ascii) (a b : string) :
  Py.char_in c (a ++ b)%string = Py.char_in c a || Py.char_in c b.
Proof.
  induction a as [|d a IH]; simpl; [reflexivity|].
  now rewrite IH, orb_assoc.
Qed.

Lemma basename_from_no_slash (path : string) :
  forall acc, Py.char_in "/"%char acc = false ->
              Py.char_in "/"%char (basename_from acc path) = false.
Proof.
  induction path as [|c path IH]; intros acc Hacc; simpl; [exact Hacc|].
  destruct (Ascii.eqb c "/"%char) eqn:Hc.
  - now apply IH.
  - apply IH. rewrite char_in_app, Hacc. cbn [Py.char_in orb].
    rewrite Ascii.eqb_sym, Hc. reflexivity.
Qed.

(** X23.  The [audio_file] entry of a success document is the name of
    the temporary file without any directory part, and by the time the
    document is returned that file has been removed. *)
Theorem success_names_removed_file
  (sarvam_post : string -> string -> PostOutcome) (hf_post : string -> PostOutcome)
  (request_files : list (string * FileStorage)) (temp_filename : string)
  (fs : FileSystem) (text_out language_code audio_name : string)
  (data : CategorizedEntitySet) :
  fst (process_audio sarvam_post hf_post request_files temp_filename fs) =
  (BodySuccess text_out language_code data audio_name, 200) ->
  audio_name = basename temp_filename /\
  Py.char_in "/"%char audio_name = false /\
  fs_exists (snd (process_audio sarvam_post hf_post request_files temp_filename fs))
    temp_filename = false.
Proof.
  destruct (files_get request_files "file") as [file|] eqn:Hfile.
  2:{ unfold process_audio. rewrite Hfile. discriminate. }
  destruct (String.eqb (filename file) "") eqn:Hname.
  { unfold process_audio. rewrite Hfile, Hname. discriminate. }
  apply String.eqb_neq in Hname.
  rewrite (process_audio_accepted _ _ _ _ _ file Hfile Hname). simpl.
  intros H.
  assert (Hname' : audio_name = basename temp_filename).
  { destruct (transcribe_audio_with_sarvam _ _ _) as [t lang|]; [|discriminate].
    destruct (extract_medical_entities hf_post t); [|discriminate].
    now injection H as _ _ _ <-. }
  split; [exact Hname'|]. split.
  - subst audio_name. now apply basename_from_no_slash.
  - unfold fs_exists. now rewrite fs_read_unlink.
Qed.

Lemma success_names_removed_file_witness :
  "tmpab12.wav" = basename "/tmp/tmpab12.wav" /\
  Py.char_in "/"%char "tmpab12.wav" = false /\
  fs_exists
    (snd (process_audio
            (fun _ _ =>
               PostReturns
                 (mkResponse 200 "{...}"
                    (JsonValue (PyDict [("transcript", scenario1_text);
                                        ("language_code", "en-IN")]))))
            (always (ok_response aligned_entities))
            [("file", mkUpload "visit.wav" "RIFF")] "/tmp/tmpab12.wav" []))
    "/tmp/tmpab12.wav" = false.
Proof.
  apply (success_names_removed_file
           (fun _ _ =>
              PostReturns
                (mkResponse 200 "{...}"
                   (JsonValue (PyDict [("transcript", scenario1_text);
                                       ("language_code", "en-IN")]))))
           (always (ok_response aligned_entities))
           [("file", mkUpload "visit.wav" "RIFF")] "/tmp/tmpab12.wav" []
           scenario1_text "en-IN" "tmpab12.wav"
           (mkSet ["hyper"; "tension"] [] [] [] [])).
  reflexivity.
Defined.

(** ** [send_to_sarvam] *)

(** X24.  [send_to_sarvam] returns either [None] or a JSON object, and
    it returns an object exactly when [recording.wav] exists and the
    service answers 200 with that object.  When the recording is
    missing nothing is sent: the only line printed is the error. *)
Theorem send_to_sarvam_result (sarvam_post : string -> string -> PostOutcome)
  (fs : FileSystem) :
  (snd (send_to_sarvam sarvam_post fs) = PyNone \/
   exists result, snd (send_to_sarvam sarvam_post fs) = PyDict result) /\
  (forall result,
     snd (send_to_sarvam sarvam_post fs) = PyDict result <->
     exists audio_file response,
       fs_read fs "recording.wav" = Some audio_file /\
       sarvam_post "recording.wav" audio_file = PostReturns response /\
       status_code response = 200 /\
       json response = JsonValue (PyDict result)) /\
  (fs_read fs "recording.wav" = None ->
   fst (send_to_sarvam sarvam_post fs) =
   ["Error sending to Sarvam AI: [Errno 2] No such file or directory: 'recording.wav'"]).
Proof.
  unfold send_to_sarvam, WAVE_OUTPUT_FILENAME.
  destruct (fs_read fs "recording.wav") as [audio|] eqn:Hread.
  2:{ simpl. split; [now left|]. split; [|reflexivity].
      intros result. split; [discriminate|]. intros (a & r & H & _). discriminate. }
  destruct (sarvam_post "recording.wav" audio) as [e|response] eqn:Hpost.
  { simpl. split; [now left|]. split; [|discriminate].
    intros result. split; [discriminate|].
    intros (a & r & [= <-] & H & _). congruence. }
  destruct (status_code response =? 200) eqn:Hstatus.
  2:{ simpl. split; [now left|]. split; [|discriminate].
      intros result. split; [discriminate|].
      intros (a & r & [= <-] & H & H200 & _).
      rewrite Hpost in H. injection H as <-.
      apply Z.eqb_neq in Hstatus. contradiction. }
  apply Z.eqb_eq in Hstatus.
  destruct (json response) as [e|[|raw|result']] eqn:Hjson; simpl.
  - split; [now left|]. split; [|discriminate].
    intros result. split; [discriminate|].
    intros (a & r & [= <-] & H & _ & Hj). rewrite Hpost in H. injection H as <-.
    congruence.
  - split; [now left|]. split; [|discriminate].
    intros result. split; [discriminate|].
    intros (a & r & [= <-] & H & _ & Hj). rewrite Hpost in H. injection H as <-.
    congruence.
  - split; [now left|]. split; [|discriminate].
    intros result. split; [discriminate|].
    intros (a & r & [= <-] & H & _ & Hj). rewrite Hpost in H. injection H as <-.
    congruence.
  - split; [right; now exists result'|]. split; [|discriminate].
    intros result. split.
    + intros [= <-]. exists audio, response. repeat split; auto.
    + intros (a & r & [= <-] & H & _ & Hj). rewrite Hpost in H. injection H as <-.
      rewrite Hjson in Hj. now injection Hj as <-.
Qed.
